(** * llm-viz: the frame scheduler of [LayerView.tsx]

    A shallow embedding of the [CanvasRender] class and of the [LayerView]
    handlers that drive it (keyboard commands, resize notifications), together
    with the part of the browser they talk to: the clock, the animation-frame
    queue, the canvas element and its measured box.

    JavaScript numbers are IEEE-754 binary64 values: they are modelled by the
    primitive floats of the kernel, so [time - prevTime] and [dt < 8] below are
    the operations the script engine performs.  Animation-frame handles are the
    integers the host hands out; they are kept in [N]. *)

From Stdlib Require Import Bool List String NArith ZArith Lia Floats.
Import ListNotations.

Definition number := float.

(** ** The host platform

    What the browser provides to the scheduler: [performance.now()], the list
    of animation-frame callbacks (every callback the scheduler registers is its
    own [loop], so a pending callback is represented by its handle), the canvas
    element with its backing-surface size, the element's measured box and the
    device pixel ratio. *)

Record DOMRect := {
  rect_x : number;
  rect_y : number;
  rect_width : number;
  rect_height : number
}.

Record HTMLCanvasElement := {
  width : number;
  height : number
}.

Record Host := {
  clock : number;
  frameId : N;
  frameQueue : list N;
  canvasEl : HTMLCanvasElement;
  boundingClientRect : DOMRect;
  devicePixelRatio : number
}.

(** [new Vec3(x, y)]: the two arguments the caller gives. *)
Inductive Vec3 := Vec3_new (x y : number).

(** The per-frame view handed to [runProgram]; its [markDirty] member is the
    scheduler's own method. *)
Record IRenderView := {
  view_time : number;
  view_dt : number
}.

(** ** Collaborators declared outside [LayerView.tsx]

    Their types and bodies live in other modules of the project
    ([GptModel], [Program], [utils/random], [render/fontRender]); the scheduler
    only calls them, so they are an interface the development is parametric
    in.  First the types. *)

Class ProjectTypes := {
  IDataAndModel : Type;
  IGpuGptModel : Type;
  IFontAtlasData : Type;
  Random : Type;
  RenderRest : Type;
  WalkthroughRest : Type;
  ProgramRest : Type
}.

Section DataModel.

Context {T : ProjectTypes}.

(** [IRenderState]: the size the render pass maintains; [canvasEl] is the DOM
    element of the host. *)
Record IRenderState := {
  size : Vec3;
  renderRest : RenderRest
}.

(** The walkthrough fields the keyboard commands read and write. *)
Record IWalkthrough := {
  running : bool;
  time : number;
  phaseLength : number;
  walkthroughRest : WalkthroughRest
}.

(** [render_] is the [render] member of the program state ([render] names the
    method of [CanvasRender] below). *)
Record IProgramState := {
  render_ : IRenderState;
  walkthrough : IWalkthrough;
  gptGpuModel : option IGpuGptModel;
  programRest : ProgramRest
}.

Record ICanvasData := {
  dataAndModel : option IDataAndModel
}.

End DataModel.

(** Then the functions.  [runProgram] and the overlay subscribers run
    arbitrary project code over the program state; the only way they reach the
    scheduler is the [markDirty] callback, so each returns the new program
    state and how many times it invoked that callback.  [toCanvasSize] is the
    conversion the host applies when a number is stored into the [width] or
    [height] attribute of a canvas. *)

Class Project (T : ProjectTypes) := {
  Random_new : number -> Random;
  Random_next : Random -> number * Random;
  initProgramState : HTMLCanvasElement -> IFontAtlasData -> IProgramState;
  initModel : IRenderState -> IDataAndModel -> number -> IGpuGptModel;
  setModelInputData :
    IRenderState -> IGpuGptModel -> Random -> IGpuGptModel * Random;
  runModel : IRenderState -> IGpuGptModel -> IGpuGptModel;
  runProgram : IRenderView -> IProgramState -> IProgramState * nat;
  htmlSubs_notify : IProgramState -> IProgramState * nat;
  toCanvasSize : number -> number
}.

Section Scheduler.

Context {T : ProjectTypes} {P : Project T}.

(** Modelled from the spec: the seeded generator of [utils/random], whose
    source is not part of [LayerView.tsx].  The spec gives it an internal state
    seeded once at construction by [new(seed)] and a [next()] that returns a
    number and advances the state; its output sequence is what successive
    [next()] calls return.  The algorithm itself is left to [Random_next]. *)
Fixpoint Random_outputs (g : Random) (n : nat) : list number :=
  match n with
  | O => []
  | S n' => let (x, g') := Random_next g in x :: Random_outputs g' n'
  end.

(** *** Observable effects

    What a session does that is visible from outside, in the order it does
    it: a frame callback requested from the host; [markDirty] raising the
    dirty flag; a render pass starting with its [(time, dt)]; the backing
    surface resized to the values assigned to [canvasEl.width] and
    [canvasEl.height]; the overlay subscribers notified; the three engine
    calls with their arguments; [ev.preventDefault()]. *)

Inductive Event :=
| EvRequestFrame (handle : N)
| EvMarkDirty
| EvRender (time dt : number)
| EvResize (w h : number)
| EvNotify
| EvInitModel (d : IDataAndModel) (batch : number)
| EvSetModelInputData (m : IGpuGptModel) (r : Random)
| EvRunModel (m : IGpuGptModel)
| EvPreventDefault.

(** *** The [CanvasRender] class

    Its fields, but for [renderState], which is an alias of
    [progState.render], and [modelState], which no method reads or writes. *)

Record CanvasRender := {
  progState : IProgramState;
  random : Random;
  stopped : bool;
  canvasSizeDirty : bool;
  canvasData : option ICanvasData;
  prevTime : number;
  rafHandle : N;
  isDirty : bool
}.

(** A session: the instance, the host it runs on, and what it did so far
    (oldest event first). *)
Record World := {
  this : CanvasRender;
  host : Host;
  trace : list Event
}.

(** [this.renderState] is the same object as [this.progState.render]. *)
Definition renderState (c : CanvasRender) : IRenderState :=
  render_ (progState c).

Definition set_progState (p : IProgramState) (c : CanvasRender) : CanvasRender :=
  {| progState := p; random := random c; stopped := stopped c;
     canvasSizeDirty := canvasSizeDirty c; canvasData := canvasData c;
     prevTime := prevTime c; rafHandle := rafHandle c; isDirty := isDirty c |}.

Definition set_random (r : Random) (c : CanvasRender) : CanvasRender :=
  {| progState := progState c; random := r; stopped := stopped c;
     canvasSizeDirty := canvasSizeDirty c; canvasData := canvasData c;
     prevTime := prevTime c; rafHandle := rafHandle c; isDirty := isDirty c |}.

Definition set_stopped (b : bool) (c : CanvasRender) : CanvasRender :=
  {| progState := progState c; random := random c; stopped := b;
     canvasSizeDirty := canvasSizeDirty c; canvasData := canvasData c;
     prevTime := prevTime c; rafHandle := rafHandle c; isDirty := isDirty c |}.

Definition set_canvasSizeDirty (b : bool) (c : CanvasRender) : CanvasRender :=
  {| progState := progState c; random := random c; stopped := stopped c;
     canvasSizeDirty := b; canvasData := canvasData c;
     prevTime := prevTime c; rafHandle := rafHandle c; isDirty := isDirty c |}.

Definition set_canvasData (d : option ICanvasData) (c : CanvasRender) : CanvasRender :=
  {| progState := progState c; random := random c; stopped := stopped c;
     canvasSizeDirty := canvasSizeDirty c; canvasData := d;
     prevTime := prevTime c; rafHandle := rafHandle c; isDirty := isDirty c |}.

Definition set_prevTime (t : number) (c : CanvasRender) : CanvasRender :=
  {| progState := progState c; random := random c; stopped := stopped c;
     canvasSizeDirty := canvasSizeDirty c; canvasData := canvasData c;
     prevTime := t; rafHandle := rafHandle c; isDirty := isDirty c |}.

Definition set_rafHandle (h : N) (c : CanvasRender) : CanvasRender :=
  {| progState := progState c; random := random c; stopped := stopped c;
     canvasSizeDirty := canvasSizeDirty c; canvasData := canvasData c;
     prevTime := prevTime c; rafHandle := h; isDirty := isDirty c |}.

Definition set_isDirty (b : bool) (c : CanvasRender) : CanvasRender :=
  {| progState := progState c; random := random c; stopped := stopped c;
     canvasSizeDirty := canvasSizeDirty c; canvasData := canvasData c;
     prevTime := prevTime c; rafHandle := rafHandle c; isDirty := b |}.

Definition on_this (f : CanvasRender -> CanvasRender) (w : World) : World :=
  {| this := f (this w); host := host w; trace := trace w |}.

Definition on_host (f : Host -> Host) (w : World) : World :=
  {| this := this w; host := f (host w); trace := trace w |}.

Definition emit (e : Event) (w : World) : World :=
  {| this := this w; host := host w; trace := trace w ++ [e] |}.

Definition on_progState (f : IProgramState -> IProgramState) (w : World) : World :=
  on_this (fun c => set_progState (f (progState c)) c) w.

Local Open Scope float_scope.

(** *** Host primitives *)

Definition performance_now (w : World) : number := clock (host w).

(** [requestAnimationFrame(this.loop)]: the host increments its callback
    identifier, queues the callback under it and returns it. *)
Definition requestAnimationFrame (w : World) : N * World :=
  let h := N.succ (frameId (host w)) in
  (h, emit (EvRequestFrame h)
        (on_host (fun o =>
           {| clock := clock o; frameId := h;
              frameQueue := frameQueue o ++ [h]; canvasEl := canvasEl o;
              boundingClientRect := boundingClientRect o;
              devicePixelRatio := devicePixelRatio o |}) w)).

Definition set_canvasEl (c : HTMLCanvasElement) (o : Host) : Host :=
  {| clock := clock o; frameId := frameId o; frameQueue := frameQueue o;
     canvasEl := c; boundingClientRect := boundingClientRect o;
     devicePixelRatio := devicePixelRatio o |}.

Definition set_frameQueue (q : list N) (o : Host) : Host :=
  {| clock := clock o; frameId := frameId o; frameQueue := q;
     canvasEl := canvasEl o; boundingClientRect := boundingClientRect o;
     devicePixelRatio := devicePixelRatio o |}.

Definition set_clock (t : number) (o : Host) : Host :=
  {| clock := t; frameId := frameId o; frameQueue := frameQueue o;
     canvasEl := canvasEl o; boundingClientRect := boundingClientRect o;
     devicePixelRatio := devicePixelRatio o |}.

Definition set_boundingClientRect (r : DOMRect) (o : Host) : Host :=
  {| clock := clock o; frameId := frameId o; frameQueue := frameQueue o;
     canvasEl := canvasEl o; boundingClientRect := r;
     devicePixelRatio := devicePixelRatio o |}.

Definition set_devicePixelRatio (s : number) (o : Host) : Host :=
  {| clock := clock o; frameId := frameId o; frameQueue := frameQueue o;
     canvasEl := canvasEl o; boundingClientRect := boundingClientRect o;
     devicePixelRatio := s |}.

(** [canvasEl.width = v] and [canvasEl.height = v]. *)
Definition assign_width (v : number) (w : World) : World :=
  on_host (fun o => set_canvasEl
    {| width := toCanvasSize v; height := height (canvasEl o) |} o) w.

Definition assign_height (v : number) (w : World) : World :=
  on_host (fun o => set_canvasEl
    {| width := width (canvasEl o); height := toCanvasSize v |} o) w.

(** *** Methods *)

(** [destroy()] *)
Definition destroy (w : World) : World :=
  on_this (set_stopped true) w.

(** [!this.canvasData]: an object is truthy, [null] is not. *)
Definition isNull {A : Type} (o : option A) : bool :=
  match o with None => true | Some _ => false end.

(** [markDirty = () => { ... }] *)
Definition markDirty (w : World) : World :=
  if isNull (canvasData (this w)) || stopped (this w) then w
  else
    let w := emit EvMarkDirty (on_this (set_isDirty true) w) in
    if (rafHandle (this w) =? 0)%N then
      let w := on_this (set_prevTime (performance_now w)) w in
      let (h, w) := requestAnimationFrame w in
      on_this (set_rafHandle h) w
    else w.

(** A collaborator that invoked the [markDirty] callback [k] times. *)
Definition callbacks (k : nat) (w : World) : World :=
  Nat.iter k markDirty w.

Definition set_size (v : Vec3) (p : IProgramState) : IProgramState :=
  {| render_ := {| size := v; renderRest := renderRest (render_ p) |};
     walkthrough := walkthrough p; gptGpuModel := gptGpuModel p;
     programRest := programRest p |}.

(** [render(time, dt)] *)
Definition render (time dt : number) (w : World) : World :=
  let w := emit (EvRender time dt) w in
  let w :=
    if canvasSizeDirty (this w) then
      let bcr := boundingClientRect (host w) in
      let scale := devicePixelRatio (host w) in
      let w := assign_width (rect_width bcr * scale) w in
      let w := assign_height (rect_height bcr * scale) w in
      let w := emit (EvResize (rect_width bcr * scale) (rect_height bcr * scale)) w in
      let w := on_progState
        (set_size (Vec3_new (width (canvasEl (host w))) (height (canvasEl (host w))))) w in
      on_this (set_canvasSizeDirty false) w
    else w in
  let view := {| view_time := time; view_dt := dt |} in
  let (p, k) := runProgram view (progState (this w)) in
  let w := callbacks k (on_progState (fun _ => p) w) in
  let (p, k) := htmlSubs_notify (progState (this w)) in
  callbacks k (emit EvNotify (on_progState (fun _ => p) w)).

(** [loop = (time: number) => { ... }] *)
Definition loop (time : number) (w : World) : World :=
  if negb (isDirty (this w)) || stopped (this w) then
    on_this (set_rafHandle 0%N) w
  else
    let w := on_this (set_isDirty false) w in
    let dt := time - prevTime (this w) in
    let w := on_this (set_prevTime time) w in
    let dt := if dt <? 8 then 16 else dt in
    let w := render time dt w in
    let (h, w) := requestAnimationFrame w in
    on_this (set_rafHandle h) w.

Definition set_gptGpuModel (m : option IGpuGptModel) (p : IProgramState) : IProgramState :=
  {| render_ := render_ p; walkthrough := walkthrough p; gptGpuModel := m;
     programRest := programRest p |}.

(** [setData(data)] *)
Definition setData (data : ICanvasData) (w : World) : World :=
  let w := on_this (set_canvasData (Some data)) w in
  let w :=
    match dataAndModel data, gptGpuModel (progState (this w)) with
    | Some dm, None =>
        let rs := renderState (this w) in
        let m := initModel rs dm 1 in
        let w := emit (EvInitModel dm 1) w in
        let w := on_progState (set_gptGpuModel (Some m)) w in
        let w := emit (EvSetModelInputData m (random (this w))) w in
        let '(m, r) := setModelInputData (renderState (this w)) m (random (this w)) in
        let w := on_this (set_random r) (on_progState (set_gptGpuModel (Some m)) w) in
        let w := emit (EvRunModel m) w in
        on_progState (set_gptGpuModel (Some (runModel (renderState (this w)) m))) w
    | _, _ => w
    end in
  markDirty w.

(** [new CanvasRender(canvasEl, canvasData, fontAtlasData)]: the field
    initialisers, then the constructor body. *)
Definition CanvasRender_new (canvasData : option ICanvasData)
    (fontAtlasData : IFontAtlasData) (o : Host) : World :=
  {| this :=
       {| progState := initProgramState (canvasEl o) fontAtlasData;
          random := Random_new 4;
          stopped := false;
          canvasSizeDirty := true;
          canvasData := canvasData;
          prevTime := clock o;
          rafHandle := 0%N;
          isDirty := false |};
     host := o;
     trace := [] |}.

(** *** The [LayerView] handlers *)

Definition set_walkthrough (f : IWalkthrough -> IWalkthrough) (p : IProgramState)
  : IProgramState :=
  {| render_ := render_ p; walkthrough := f (walkthrough p);
     gptGpuModel := gptGpuModel p; programRest := programRest p |}.

Definition set_running (b : bool) (t : IWalkthrough) : IWalkthrough :=
  {| running := b; time := time t; phaseLength := phaseLength t;
     walkthroughRest := walkthroughRest t |}.

Definition set_time (x : number) (t : IWalkthrough) : IWalkthrough :=
  {| running := running t; time := x; phaseLength := phaseLength t;
     walkthroughRest := walkthroughRest t |}.

Definition on_walkthrough (f : IWalkthrough -> IWalkthrough) (w : World) : World :=
  on_progState (set_walkthrough f) w.

Definition walkthroughOf (w : World) : IWalkthrough :=
  walkthrough (progState (this w)).

Definition key_is (key : string) (names : list string) : bool :=
  existsb (String.eqb key) names.

(** The body of [handleKeyDown] once [canvasRender] is known to be there: the
    four [if] statements, in order. *)
Definition keyCommand (key : string) (w : World) : World :=
  let w :=
    if key_is key [" "%string] then
      let w := on_walkthrough (fun t => set_running (negb (running t)) t) w in
      markDirty w
    else w in
  let w :=
    if key_is key ["Backspace"%string; "Delete"%string] then
      let w := on_walkthrough (set_running false) w in
      let w := on_walkthrough (set_time 0) w in
      markDirty w
    else w in
  let w :=
    if key_is key ["f"%string; "F"%string] then
      let w := on_walkthrough (set_running false) w in
      let w := on_walkthrough (fun t => set_time (phaseLength t) t) w in
      markDirty w
    else w in
  if key_is key [" "%string] then emit EvPreventDefault w else w.

(** [handleKeyDown(ev)]: nothing happens while there is no [canvasRender]. *)
Definition handleKeyDown (key : string) (canvasRender : option World) : option World :=
  match canvasRender with
  | None => None
  | Some w => Some (keyCommand key w)
  end.

(** The three commands of the walkthrough, by the keys bound to them. *)
Inductive Command := Toggle | Reset | SkipToEnd.

Definition keyOf (c : Command) : string :=
  match c with
  | Toggle => " "
  | Reset => "Backspace"
  | SkipToEnd => "f"
  end.

Definition command (c : Command) (w : World) : World := keyCommand (keyOf c) w.

(** The [ResizeObserver] callback. *)
Definition resizeObserved (w : World) : World :=
  markDirty (on_this (set_canvasSizeDirty true) w).

(** The host runs the oldest pending animation-frame callback, if any. *)
Definition fireFrame (time : number) (w : World) : World :=
  match frameQueue (host w) with
  | [] => w
  | _ :: q => loop time (on_host (set_frameQueue q) w)
  end.

(** *** Executions

    Everything that can happen to a session after its construction.
    [LayerView] calls [setData], [destroy], the key handler and the resize
    observer's callback; the consumers of the program state (sidebar, event
    surface) call the [markDirty] it carries and mutate it; the host runs a
    queued frame callback with a timestamp of its choice, lets its clock
    advance, lays the element out anew, or changes the pixel ratio. *)

Inductive Input :=
| InSetData (data : ICanvasData)
| InKeyDown (key : string)
| InResize
| InMarkDirty
| InMutate (f : IProgramState -> IProgramState)
| InFrame (time : number)
| InDestroy
| InClock (t : number)
| InLayout (r : DOMRect)
| InPixelRatio (s : number).

Definition step (i : Input) (w : World) : World :=
  match i with
  | InSetData data => setData data w
  | InKeyDown key => keyCommand key w
  | InResize => resizeObserved w
  | InMarkDirty => markDirty w
  | InMutate f => on_progState f w
  | InFrame time => fireFrame time w
  | InDestroy => destroy w
  | InClock t => on_host (set_clock t) w
  | InLayout r => on_host (set_boundingClientRect r) w
  | InPixelRatio s => on_host (set_devicePixelRatio s) w
  end.

Definition run (ins : list Input) (w : World) : World :=
  fold_left (fun w i => step i w) ins w.

(** A host in which no frame callback has been requested yet. *)
Definition freshHost (o : Host) : Host := set_frameQueue [] o.

(** The session [LayerView] creates: [new CanvasRender(canvasEl, null!, fontAtlasData)]. *)
Definition session (fontAtlasData : IFontAtlasData) (o : Host) : World :=
  CanvasRender_new None fontAtlasData (freshHost o).

End Scheduler.

(** ** Reading a trace *)

Section Traces.

Context {T : ProjectTypes}.

Definition isRequest (e : Event) : bool :=
  match e with EvRequestFrame _ => true | _ => false end.

Definition isRender (e : Event) : bool :=
  match e with EvRender _ _ => true | _ => false end.

Definition isEngineCall (e : Event) : bool :=
  match e with
  | EvInitModel _ _ | EvSetModelInputData _ _ | EvRunModel _ => true
  | _ => false
  end.

(** How many frame callbacks were requested. *)
Definition requests (t : list Event) : nat := List.length (filter isRequest t).

(** The backing-surface resizes, oldest first. *)
Fixpoint resizes (t : list Event) : list (number * number) :=
  match t with
  | [] => []
  | EvResize w h :: t' => (w, h) :: resizes t'
  | _ :: t' => resizes t'
  end.

(** The render passes, oldest first, each with its [(time, dt)]. *)
Fixpoint renders (t : list Event) : list (number * number) :=
  match t with
  | [] => []
  | EvRender time dt :: t' => (time, dt) :: renders t'
  | _ :: t' => renders t'
  end.

(** [markDirty] set the flag at some point of [t], and no render pass began
    after that. *)
Definition dirtiedSinceRender (t : list Event) : Prop :=
  exists before after,
    t = before ++ EvMarkDirty :: after /\ forallb (fun e => negb (isRender e)) after = true.

End Traces.

(** ** Vocabulary of the properties *)

Section Vocabulary.

Context {T : ProjectTypes} {P : Project T}.

Local Open Scope float_scope.

(** The guard of [markDirty] lets the call through: the scheduler has canvas
    data and has not been stopped. *)
Definition live (w : World) : bool :=
  negb (isNull (canvasData (this w)) || stopped (this w)).

(** What [markDirty] never touches: the program state, the generator, the
    flags other than [isDirty], the bound data, and the host apart from its
    frame queue. *)
Record sameOutside (w w' : World) : Prop := {
  same_progState : progState (this w') = progState (this w);
  same_random : random (this w') = random (this w);
  same_stopped : stopped (this w') = stopped (this w);
  same_canvasSizeDirty : canvasSizeDirty (this w') = canvasSizeDirty (this w);
  same_canvasData : canvasData (this w') = canvasData (this w);
  same_clock : clock (host w') = clock (host w);
  same_canvasEl : canvasEl (host w') = canvasEl (host w);
  same_box : boundingClientRect (host w') = boundingClientRect (host w);
  same_ratio : devicePixelRatio (host w') = devicePixelRatio (host w)
}.

(** Between host events: the frame queue holds the callback recorded in
    [rafHandle], or is empty when [rafHandle] is 0. *)
Definition pendingOK (w : World) : Prop :=
  frameQueue (host w) =
    if (rafHandle (this w) =? 0)%N then [] else [rafHandle (this w)].

(** While the host runs the callback: it has left the queue, and its handle
    is still in [rafHandle]. *)
Definition inCallback (w : World) : Prop :=
  frameQueue (host w) = [] /\ rafHandle (this w) <> 0%N.

(** The resize a render pass that starts in [w] performs: one when the size
    is dirty, to the measured box times the device pixel ratio, none
    otherwise. *)
Definition resizeEvents (w : World) : list Event :=
  if canvasSizeDirty (this w) then
    [EvResize (rect_width (boundingClientRect (host w)) * devicePixelRatio (host w))
              (rect_height (boundingClientRect (host w)) * devicePixelRatio (host w))]
  else [].

(** The delta time the render pass receives. *)
Definition frameDelta (time : number) (w : World) : number :=
  let dt := time - prevTime (this w) in
  if dt <? 8 then 16 else dt.

(** The engine calls a [setData] makes. *)
Definition engineCalls (data : ICanvasData) (w : World) : list Event :=
  match dataAndModel data, gptGpuModel (progState (this w)) with
  | Some dm, None =>
      let rs := renderState (this w) in
      let m := initModel rs dm 1 in
      [EvInitModel dm 1;
       EvSetModelInputData m (random (this w));
       EvRunModel (fst (setModelInputData rs m (random (this w))))]
  | _, _ => []
  end.

(** The walkthrough after each of the three commands. *)
Definition toggled (t : IWalkthrough) : IWalkthrough :=
  set_running (negb (running t)) t.

Definition rewound (t : IWalkthrough) : IWalkthrough :=
  set_time 0 (set_running false t).

Definition skipped (t : IWalkthrough) : IWalkthrough :=
  set_time (phaseLength t) (set_running false t).

(** The host has no frame callback queued. *)
Definition noFramePending (w : World) : bool :=
  match frameQueue (host w) with [] => true | _ :: _ => false end.

(** Any input but a [setData] call. *)
Definition notSetData (i : Input) : bool :=
  match i with InSetData _ => false | _ => true end.

(** Nothing has been scheduled or drawn, and the scheduler has no data. *)
Definition unbound (c : number) (w : World) : Prop :=
  canvasData (this w) = None /\ isDirty (this w) = false /\
  prevTime (this w) = c /\ rafHandle (this w) = 0%N /\
  frameQueue (host w) = [] /\
  requests (trace w) = 0%nat /\ renders (trace w) = [].

(** The events [markDirty] can emit. *)
Definition isSched (e : Event) : bool :=
  match e with EvMarkDirty | EvRequestFrame _ => true | _ => false end.

(** The canvas after the size reconciliation of a render pass. *)
Definition reconciled (w : World) : HTMLCanvasElement :=
  if canvasSizeDirty (this w) then
    {| width := toCanvasSize
         (rect_width (boundingClientRect (host w)) * devicePixelRatio (host w));
       height := toCanvasSize
         (rect_height (boundingClientRect (host w)) * devicePixelRatio (host w)) |}
  else canvasEl (host w).

(** The element takes the box [r], and the observer reports it. *)
Definition resizeTo (r : DOMRect) : list Input := [InLayout r; InResize].

(** No render pass begins in [evs]. *)
Definition quiet (evs : list Event) : bool :=
  forallb (fun e => negb (isRender e)) evs.

(** Every render pass of [t] began after a [markDirty] that no other render
    pass had consumed. *)
Definition rendersJustified (t : list Event) : Prop :=
  forall before time dt after,
    t = before ++ EvRender time dt :: after -> dirtiedSinceRender before.

(** The flag is up only if [markDirty] raised it since the last render pass. *)
Definition traceOK (w : World) : Prop :=
  (isDirty (this w) = true -> dirtiedSinceRender (trace w)) /\
  rendersJustified (trace w).

(** One binding of a model: [initModel], then [setModelInputData] on the
    handle it returned, then [runModel] on that handle. *)
Definition bindCalls (b : IRenderState * IDataAndModel * Random) : list Event :=
  let '(rs, dm, r) := b in
  let m := initModel rs dm 1 in
  [EvInitModel dm 1; EvSetModelInputData m r;
   EvRunModel (fst (setModelInputData rs m r))].

(** Until the session makes its first engine call the generator is the one
    the constructor built. *)
Definition generatorFresh (w : World) : Prop :=
  filter isEngineCall (trace w) = [] -> random (this w) = Random_new 4.

End Vocabulary.

(** ** More vocabulary: whole executions *)

Section ExecutionVocabulary.

Context {T : ProjectTypes}.

Definition isPreventDefault (e : Event) : bool :=
  match e with EvPreventDefault => true | _ => false end.

(** How many times [ev.preventDefault()] was called. *)
Definition prevented (t : list Event) : nat :=
  List.length (filter isPreventDefault t).

(** The keys [handleKeyDown] reacts to. *)
Definition boundKeys : list string :=
  [" "; "Backspace"; "Delete"; "f"; "F"]%string.

(** Any input but a frame firing. *)
Definition notFrame (i : Input) : bool :=
  match i with InFrame _ => false | _ => true end.

End ExecutionVocabulary.

Section SizingVocabulary.

Context {T : ProjectTypes} {P : Project T}.

(** At most one resize per render pass so far; and as long as nothing was
    resized, nothing was rendered and the size is still marked dirty. *)
Definition sizedBeforeDrawn (w : World) : Prop :=
  (List.length (resizes (trace w)) <= List.length (renders (trace w)))%nat /\
  (resizes (trace w) = [] ->
   renders (trace w) = [] /\ canvasSizeDirty (this w) = true).

(** A raised dirty flag has a frame callback to serve it, unless the
    scheduler has been stopped. *)
Definition flagServed (w : World) : Prop :=
  stopped (this w) = false -> isDirty (this w) = true ->
  frameQueue (host w) <> [].

End SizingVocabulary.


(** ** The local-storage helpers ([readFromLocalStorage],
    [writeToLocalStorage])

    The values are the JavaScript values of the caller's type [T]; what the
    script engine and the host decide about them is an interface: whether a
    value is truthy, what [JSON.parse] makes of a text ([None]: it throws),
    the text [setItem] receives for [JSON.stringify(value)] ([None]: it
    throws), and whether the storage has room for an item ([setItem] throws
    when it has not). *)

Module LocalStorage.

Class Json (Value : Type) := {
  truthy : Value -> bool;
  JSON_parse : string -> option Value;
  JSON_stringify : Value -> option string;
  roomFor : string -> string -> (string -> option string) -> bool
}.

(** [window.localStorage]: a text per key. *)
Definition Storage : Type := string -> option string.

Definition getItem (key : string) (s : Storage) : option string := s key.

Definition setItem (key value : string) (s : Storage) : Storage :=
  fun k => if String.eqb k key then Some value else s k.

Definition removeItem (key : string) (s : Storage) : Storage :=
  fun k => if String.eqb k key then None else s k.

(** [console.error('Failed to parse local storage value:', key, value)] *)
Inductive Console := ConsoleError (key value : string).

(** A call returns or throws. *)
Inductive Outcome (A : Type) :=
| Returned (a : A)
| Thrown.

Arguments Returned {A} a.
Arguments Thrown {A}.

Section Helpers.

Context {Value : Type} {J : Json Value}.

(** [readFromLocalStorage(key)]; [ls] is [None] where there is no [window].
    The result is the value returned ([None]: [undefined]) and what was
    written to the console. *)
Definition readFromLocalStorage (key : string) (ls : option Storage)
  : option Value * list Console :=
  let value := match ls with Some s => getItem key s | None => None end in
  match value with
  | Some text =>
      if String.eqb text "" then (None, [])
      else
        match JSON_parse text with
        | Some v => (Some v, [])
        | None => (None, [ConsoleError key text])
        end
  | None => (None, [])
  end.

(** [writeToLocalStorage(key, value)]: the storage after the call. *)
Definition writeToLocalStorage (key : string) (value : Value) (ls : option Storage)
  : Outcome (option Storage) :=
  if truthy value then
    match ls with
    | None => Returned None
    | Some s =>
        match JSON_stringify value with
        | None => Thrown
        | Some text =>
            if roomFor key text s then Returned (Some (setItem key text s))
            else Thrown
        end
    end
  else
    Returned (option_map (removeItem key) ls).

End Helpers.

End LocalStorage.

(** ** The screen layout ([useScreenLayout]) and what [LayerView] renders *)

Module ScreenLayout.

Record ILayout := {
  layout_width : number;
  layout_height : number;
  isDesktop : bool;
  isPhone : bool
}.

(** What [handleResize] reads: [window.innerWidth], [window.innerHeight] and
    whether the media query [screen and (max-width: 800px)] matches. *)
Record Window := {
  innerWidth : number;
  innerHeight : number;
  mediaQuery_matches : bool
}.

Definition handleResize (win : Window) : ILayout :=
  {| layout_width := innerWidth win;
     layout_height := innerHeight win;
     isDesktop := negb (mediaQuery_matches win);
     isPhone := mediaQuery_matches win |}.

(** The state [useState] starts from. *)
Definition initialLayout : ILayout :=
  {| layout_width := 0%float; layout_height := 0%float;
     isDesktop := true; isPhone := false |}.

(** The layout the hook returns after [handleResize] ran for each of the
    given windows: once when the effect mounts, then once per [resize] or
    [change] event.  No window: the first render, before the effect. *)
Definition useScreenLayout (windows : list Window) : ILayout :=
  fold_left (fun _ win => handleResize win) windows initialLayout.

(** The children of the view [LayerView] returns. *)
Inductive Element :=
| Sidebar
| CanvasWrap (eventSurface : bool).

Definition isSidebar (e : Element) : bool :=
  match e with Sidebar => true | CanvasWrap _ => false end.

(** [canvasRender] tells whether the [CanvasRender] exists yet. *)
Definition LayerView_children (layout : ILayout) (canvasRender : bool)
  : list Element :=
  let sidebar := if canvasRender then [Sidebar] else [] in
  (if isDesktop layout then sidebar else [])
  ++ [CanvasWrap canvasRender]
  ++ (if negb (isDesktop layout) then sidebar else []).

End ScreenLayout.

(** ** Loading tensor data ([fetchTensorData]) *)

Module TensorData.

Import LocalStorage.

#[local] Set Warnings "-register-all".

(** What [resp.json()] resolves to; [JObject] lists the own properties of
    the object. *)
Inductive JSON :=
| JNull
| JBool (b : bool)
| JNumber (x : number)
| JString (s : string)
| JArray (items : list JSON)
| JObject (fields : list (string * JSON)).

(** [if (v)] on a parsed value. *)
Definition truthyJSON (v : JSON) : bool :=
  match v with
  | JNull => false
  | JBool b => b
  | JNumber x => negb (PrimFloat.eqb x 0 || PrimFloat.is_nan x)
  | JString s => negb (String.eqb s "")
  | JArray _ | JObject _ => true
  end.

Fixpoint lookup (key : string) (fields : list (string * JSON)) : option JSON :=
  match fields with
  | [] => None
  | (k, v) :: rest => if String.eqb k key then Some v else lookup key rest
  end.

(** [v.shape]: a [TypeError] on [null], [undefined] on anything that is not
    an object with that property. *)
Definition shapeOf (v : JSON) : Outcome (option JSON) :=
  match v with
  | JNull => Thrown
  | JObject fields => Returned (lookup "shape" fields)
  | _ => Returned None
  end.

(** [if (v.shape)], where [v.shape] can be evaluated. *)
Definition hasShape (v : JSON) : bool :=
  match shapeOf v with
  | Returned (Some s) => truthyJSON s
  | _ => false
  end.

(** [TensorF32.fromJson] ([None]: it throws). *)
Class TensorLib := {
  TensorF32 : Type;
  TensorF32_fromJson : JSON -> option TensorF32
}.

Section Loading.

Context {L : TensorLib}.

(** A member of the loaded data: left as parsed, or turned into a tensor. *)
Inductive Entry :=
| Plain (v : JSON)
| Tensor (t : TensorF32).

(** One round of the [for] loop, on the member [v = data[k]]. *)
Definition loadEntry (v : JSON) : Outcome Entry :=
  match shapeOf v with
  | Thrown => Thrown
  | Returned shape =>
      if match shape with Some s => truthyJSON s | None => false end then
        match TensorF32_fromJson v with
        | Some t => Returned (Tensor t)
        | None => Thrown
        end
      else Returned (Plain v)
  end.

Fixpoint loadFields (fields : list (string * JSON))
  : Outcome (list (string * Entry)) :=
  match fields with
  | [] => Returned []
  | (k, v) :: rest =>
      match loadEntry v with
      | Thrown => Thrown
      | Returned e =>
          match loadFields rest with
          | Thrown => Thrown
          | Returned out => Returned ((k, e) :: out)
          end
      end
  end.

Fixpoint loadItems (items : list JSON) : Outcome (list Entry) :=
  match items with
  | [] => Returned []
  | v :: rest =>
      match loadEntry v with
      | Thrown => Thrown
      | Returned e =>
          match loadItems rest with
          | Thrown => Thrown
          | Returned out => Returned (e :: out)
          end
      end
  end.

(** What [fetchTensorData] resolves to. *)
Inductive TensorSet :=
| SetObject (fields : list (string * Entry))
| SetArray (items : list Entry)
| SetOther (v : JSON).

(** [fetchTensorData(url)], given what the response parsed to: the loop runs
    over the members of an object or an array, and over nothing that could
    carry a [shape] otherwise. *)
Definition fetchTensorData (data : JSON) : Outcome TensorSet :=
  match data with
  | JObject fields =>
      match loadFields fields with
      | Thrown => Thrown
      | Returned out => Returned (SetObject out)
      end
  | JArray items =>
      match loadItems items with
      | Thrown => Thrown
      | Returned out => Returned (SetArray out)
      end
  | _ => Returned (SetOther data)
  end.

End Loading.

End TensorData.

(** ** A small project to run the scheduler on

    A walkthrough that advances by [dt] while it runs and keeps the scheduler
    dirty as long as it does; a model whose state is the list of numbers
    written into it; a generator whose state is a counter. *)

Module Demo.

Local Open Scope float_scope.

Definition types : ProjectTypes :=
  {| IDataAndModel := list number;
     IGpuGptModel := list number;
     IFontAtlasData := unit;
     Random := number;
     RenderRest := unit;
     WalkthroughRest := Z;
     ProgramRest := unit |}.

Definition program0 : @IProgramState types :=
  {| render_ := @Build_IRenderState types (Vec3_new 0 0) tt;
     walkthrough := @Build_IWalkthrough types false 0 10 0%Z;
     gptGpuModel := None;
     programRest := tt |}.

Definition advance (view : IRenderView) (p : @IProgramState types)
  : @IProgramState types * nat :=
  if running (walkthrough p) then
    ({| render_ := render_ p;
        walkthrough :=
          @Build_IWalkthrough types true
            (time (walkthrough p) + view_dt view)
            (phaseLength (walkthrough p))
            (walkthroughRest (walkthrough p));
        gptGpuModel := gptGpuModel p;
        programRest := programRest p |}, 1%nat)
  else (p, 0%nat).

Definition project : Project types :=
  @Build_Project types
    (* Random_new *) (fun seed : number => seed)
    (* Random_next *) (fun r : number => (r / 8, r + 1))
    (* initProgramState *) (fun _ _ => program0)
    (* initModel *) (fun _ (dm : list number) _ => dm)
    (* setModelInputData *) (fun _ (m : list number) (r : number) => (r :: m, r + 1))
    (* runModel *) (fun _ (m : list number) => map (fun x => x * 2) m)
    (* runProgram *) advance
    (* htmlSubs_notify *) (fun p => (p, 0%nat))
    (* toCanvasSize *) (fun v => v).

Definition host0 : Host :=
  {| clock := 1000;
     frameId := 0%N;
     frameQueue := [];
     canvasEl := {| width := 300; height := 150 |};
     boundingClientRect :=
       {| rect_x := 0; rect_y := 0; rect_width := 640; rect_height := 480 |};
     devicePixelRatio := 2 |}.

Definition World : Type := @World types.

(** The session as [LayerView] creates it, and once data is bound. *)
Definition font0 : @IFontAtlasData types := tt.

Definition w0 : World := @session types project font0 host0.

Definition data0 : @ICanvasData types := @Build_ICanvasData types (Some [1]).

Definition bound : World := @setData types project data0 w0.

Definition box (w h : number) : DOMRect :=
  {| rect_x := 0; rect_y := 0; rect_width := w; rect_height := h |}.

End Demo.

(** ** Small instances for the helpers *)

Module DemoHelpers.

Import LocalStorage TensorData.

Local Open Scope string_scope.

(** Values are natural numbers written in unary: [3] is stored as [111];
    zero is the falsy value. *)
Fixpoint ones (n : nat) : string :=
  match n with
  | O => EmptyString
  | S n' => "1" ++ ones n'
  end.

Fixpoint count_ones (s : string) : option nat :=
  match s with
  | EmptyString => Some O
  | String c rest =>
      if String.eqb (String c EmptyString) "1"
      then option_map S (count_ones rest) else None
  end.

Definition unary : Json nat :=
  {| truthy := fun n => negb (Nat.eqb n 0);
     JSON_parse := count_ones;
     JSON_stringify := fun n => Some (ones n);
     roomFor := fun _ _ _ => true |}.

Definition emptyStorage : Storage := fun _ => None.

(** A storage whose entry [k] does not parse. *)
Definition corruptStorage : Storage := setItem "k" "1x1" emptyStorage.

Fixpoint numbers (items : list JSON) : list number :=
  match items with
  | [] => []
  | JNumber x :: rest => x :: numbers rest
  | _ :: rest => numbers rest
  end.

(** Tensors are the numbers of the [data] member. *)
Definition tensors : TensorLib :=
  {| TensorF32 := list number;
     TensorF32_fromJson := fun v =>
       match v with
       | JObject fields =>
           match lookup "data" fields with
           | Some (JArray items) => Some (numbers items)
           | _ => None
           end
       | _ => None
       end |}.

Definition weights : JSON :=
  JObject [("shape", JArray [JNumber 2%float]);
           ("data", JArray [JNumber 1%float; JNumber 2%float])].

Definition response : list (string * JSON) :=
  [("wte", weights); ("name", JString "gpt-nano"); ("n_layer", JNumber 3%float)].

End DemoHelpers.

(** * Properties *)

(** ** IEEE comparison facts used by the delta-time floor *)

Module FloatFacts.

Import SpecFloat.

Lemma CompOpp_compare_cont (p q : positive) (c : comparison) :
  Pos.compare_cont c q p = CompOpp (Pos.compare_cont (CompOpp c) p q).
Proof.
  rewrite Pos.compare_cont_antisym.
  now rewrite CompOpp_involutive.
Qed.

Lemma SFcompare_swap (x y : spec_float) :
  SFcompare y x = option_map CompOpp (SFcompare x y).
Proof.
  destruct x as [sx|sx| |sx mx ex], y as [sy|sy| |sy my ey]; cbn;
    try reflexivity;
    try (destruct sx; reflexivity);
    try (destruct sy; reflexivity);
    try (destruct sx, sy; reflexivity).
  f_equal.
  destruct sx, sy; try reflexivity;
    rewrite (Z.compare_antisym ex ey);
    destruct (ex ?= ey)%Z; cbn; try reflexivity;
    rewrite (CompOpp_compare_cont mx my Eq); cbn;
    now rewrite ?CompOpp_involutive.
Qed.

(** [a <= b] excludes [b < a], for every pair of doubles (NaN included). *)
Lemma leb_not_ltb (a b : float) :
  PrimFloat.leb a b = true -> PrimFloat.ltb b a = false.
Proof.
  rewrite leb_spec, ltb_spec.
  unfold SFleb, SFltb.
  rewrite (SFcompare_swap (Prim2SF a) (Prim2SF b)).
  destruct (SFcompare (Prim2SF a) (Prim2SF b)) as [[| |]|]; cbn; congruence.
Qed.

(** On numbers (anything but NaN) the order is total. *)
Lemma ltb_or_leb (a b : float) :
  PrimFloat.is_nan a = false -> PrimFloat.is_nan b = false ->
  PrimFloat.ltb a b = true \/ PrimFloat.leb b a = true.
Proof.
  unfold PrimFloat.is_nan.
  rewrite !eqb_spec, leb_spec, ltb_spec.
  unfold SFeqb, SFleb, SFltb.
  rewrite (SFcompare_swap (Prim2SF a) (Prim2SF b)).
  destruct (Prim2SF a) as [sa|sa| |sa ma ea] eqn:Ea;
    destruct (Prim2SF b) as [sb|sb| |sb mb eb] eqn:Eb;
    cbn; try discriminate; intros _ _;
    repeat match goal with
           | |- context [match ?c with Eq => _ | Lt => _ | Gt => _ end] =>
               destruct c; cbn
           | |- context [if ?s then _ else _] => destruct s; cbn
           end; auto.
Qed.

(** Zero and every negative number are below 8. *)
Lemma not_positive_below_eight (d : float) :
  PrimFloat.ltb d 0 = true \/ PrimFloat.eqb d 0 = true ->
  PrimFloat.ltb d 8 = true.
Proof.
  rewrite !ltb_spec, eqb_spec. unfold SFltb, SFeqb.
  replace (Prim2SF 0) with (S754_zero false) by reflexivity.
  replace (Prim2SF 8) with (S754_finite false 4503599627370496 (-49)) by reflexivity.
  destruct (Prim2SF d) as [s|[|]| |[|] m e];
    cbv beta iota delta [SFcompare];
    intros [H|H]; try discriminate H; reflexivity.
Qed.

End FloatFacts.

Section Properties.

Context {T : ProjectTypes} {P : Project T}.

Local Open Scope float_scope.

(** ** [markDirty], case by case *)

Lemma markDirty_inert (w : World) :
  live w = false -> markDirty w = w.
Proof.
  unfold live, markDirty. intros H.
  apply negb_false_iff in H. now rewrite H.
Qed.

Lemma markDirty_pending (w : World) :
  live w = true -> rafHandle (this w) <> 0%N ->
  markDirty w = emit EvMarkDirty (on_this (set_isDirty true) w).
Proof.
  unfold live, markDirty. intros H Hh.
  apply negb_true_iff in H. rewrite H. cbn.
  apply N.eqb_neq in Hh. now rewrite Hh.
Qed.

Lemma markDirty_idle (w : World) :
  live w = true -> rafHandle (this w) = 0%N ->
  markDirty w =
    let h := N.succ (frameId (host w)) in
    on_this (set_rafHandle h)
      (snd (requestAnimationFrame
         (on_this (set_prevTime (clock (host w)))
            (emit EvMarkDirty (on_this (set_isDirty true) w))))).
Proof.
  unfold live, markDirty. intros H Hh.
  apply negb_true_iff in H. rewrite H. cbn.
  rewrite Hh. reflexivity.
Qed.

Lemma live_markDirty (w : World) : live (markDirty w) = live w.
Proof.
  destruct (live w) eqn:L.
  - destruct (N.eq_dec (rafHandle (this w)) 0) as [E|E].
    + rewrite (markDirty_idle w L E). exact L.
    + rewrite (markDirty_pending w L E). exact L.
  - now rewrite (markDirty_inert w L).
Qed.

Lemma rafHandle_markDirty (w : World) :
  live w = true -> rafHandle (this (markDirty w)) <> 0%N.
Proof.
  intros L. destruct (N.eq_dec (rafHandle (this w)) 0) as [E|E].
  - rewrite (markDirty_idle w L E). cbn. apply N.neq_succ_0.
  - rewrite (markDirty_pending w L E). exact E.
Qed.

Lemma sameOutside_refl (w : World) : sameOutside w w.
Proof. now constructor. Qed.

Lemma sameOutside_trans (a b c : World) :
  sameOutside a b -> sameOutside b c -> sameOutside a c.
Proof. intros [] []; constructor; congruence. Qed.

Lemma markDirty_sameOutside (w : World) : sameOutside w (markDirty w).
Proof.
  destruct (live w) eqn:L.
  - destruct (N.eq_dec (rafHandle (this w)) 0) as [E|E].
    + rewrite (markDirty_idle w L E). now constructor.
    + rewrite (markDirty_pending w L E). now constructor.
  - rewrite (markDirty_inert w L). apply sameOutside_refl.
Qed.

Lemma callbacks_S (k : nat) (w : World) :
  callbacks (S k) w = markDirty (callbacks k w).
Proof. reflexivity. Qed.

Lemma callbacks_sameOutside (k : nat) (w : World) :
  sameOutside w (callbacks k w).
Proof.
  induction k as [|k IH].
  - apply sameOutside_refl.
  - rewrite callbacks_S.
    eapply sameOutside_trans; [exact IH | apply markDirty_sameOutside].
Qed.

Lemma live_sameOutside (w w' : World) : sameOutside w w' -> live w' = live w.
Proof. intros []. unfold live. congruence. Qed.

Lemma callbacks_inert (k : nat) (w : World) :
  live w = false -> callbacks k w = w.
Proof.
  intros L. induction k as [|k IH]; [reflexivity|].
  rewrite callbacks_S, IH. now apply markDirty_inert.
Qed.

(** ** The pending-frame invariant *)

Lemma markDirty_pendingOK (w : World) : pendingOK w -> pendingOK (markDirty w).
Proof.
  intros H. destruct (live w) eqn:L.
  - destruct (N.eq_dec (rafHandle (this w)) 0) as [E|E].
    + rewrite (markDirty_idle w L E). unfold pendingOK in *. cbn.
      rewrite E in H. cbn in H. rewrite H. cbn.
      destruct (N.succ (frameId (host w))) eqn:S; [|reflexivity].
      now apply N.neq_succ_0 in S.
    + rewrite (markDirty_pending w L E). exact H.
  - now rewrite (markDirty_inert w L).
Qed.

(** Inside a callback [markDirty] can only raise the flag. *)
Lemma markDirty_inCallback (w : World) :
  inCallback w ->
  inCallback (markDirty w) /\ host (markDirty w) = host w /\
  prevTime (this (markDirty w)) = prevTime (this w) /\
  rafHandle (this (markDirty w)) = rafHandle (this w) /\
  (trace (markDirty w) = trace w \/ trace (markDirty w) = trace w ++ [EvMarkDirty]).
Proof.
  intros [Hq Hh]. destruct (live w) eqn:L.
  - rewrite (markDirty_pending w L Hh). cbn. repeat split; auto.
  - rewrite (markDirty_inert w L). repeat split; auto.
Qed.

Lemma callbacks_inCallback (k : nat) (w : World) :
  inCallback w ->
  inCallback (callbacks k w) /\ host (callbacks k w) = host w /\
  prevTime (this (callbacks k w)) = prevTime (this w) /\
  rafHandle (this (callbacks k w)) = rafHandle (this w) /\
  exists j, trace (callbacks k w) = trace w ++ repeat EvMarkDirty j.
Proof.
  intros H. induction k as [|k IH].
  - cbn. repeat split; try apply H. exists 0%nat. cbn. now rewrite app_nil_r.
  - rewrite callbacks_S.
    destruct IH as (I & Eh & Ep & Er & j & Et).
    destruct (markDirty_inCallback _ I) as (I' & Eh' & Ep' & Er' & Et').
    repeat split; try apply I'; try congruence.
    destruct Et' as [Et'|Et'].
    + exists j. congruence.
    + exists (S j). rewrite Et', Et, <- app_assoc.
      f_equal. change [EvMarkDirty] with (repeat (@EvMarkDirty T) 1).
      rewrite <- repeat_app. now rewrite Nat.add_1_r.
Qed.

Lemma render_inCallback (time dt : number) (w : World) :
  inCallback w ->
  inCallback (render time dt w) /\
  frameId (host (render time dt w)) = frameId (host w) /\
  prevTime (this (render time dt w)) = prevTime (this w) /\
  rafHandle (this (render time dt w)) = rafHandle (this w) /\
  stopped (this (render time dt w)) = stopped (this w) /\
  canvasData (this (render time dt w)) = canvasData (this w) /\
  random (this (render time dt w)) = random (this w) /\
  canvasSizeDirty (this (render time dt w)) = false /\
  exists j k,
    trace (render time dt w) =
      trace w ++ EvRender time dt :: resizeEvents w
              ++ repeat EvMarkDirty j ++ EvNotify :: repeat EvMarkDirty k.
Proof.
  intros H. unfold render.
  set (w1 := if canvasSizeDirty (this (emit (EvRender time dt) w)) then _ else _).
  assert (I1 : inCallback w1 /\ frameId (host w1) = frameId (host w) /\
               prevTime (this w1) = prevTime (this w) /\
               rafHandle (this w1) = rafHandle (this w) /\
               stopped (this w1) = stopped (this w) /\
               canvasData (this w1) = canvasData (this w) /\
               random (this w1) = random (this w) /\
               canvasSizeDirty (this w1) = false /\
               trace w1 = trace w ++ EvRender time dt :: resizeEvents w).
  { subst w1. unfold resizeEvents. cbn.
    destruct (canvasSizeDirty (this w)) eqn:D; cbn;
      rewrite <- ?app_assoc; repeat split; try apply H; auto. }
  clearbody w1. destruct I1 as (I & Ef & Ep & Er & Es & Ec & Ern & Ed & Et).
  destruct (runProgram _ _) as [p j].
  set (w2 := on_progState (fun _ => p) w1).
  assert (I2 : inCallback w2) by exact I.
  destruct (callbacks_inCallback j _ I2) as (I3 & Eh3 & Ep3 & Er3 & j' & Et3).
  pose proof (callbacks_sameOutside j w2) as S3.
  destruct (htmlSubs_notify _) as [p' k].
  set (w3 := emit EvNotify (on_progState (fun _ => p') (callbacks j w2))).
  assert (I4 : inCallback w3) by exact I3.
  destruct (callbacks_inCallback k _ I4) as (I5 & Eh5 & Ep5 & Er5 & k' & Et5).
  pose proof (callbacks_sameOutside k w3) as S5.
  destruct S3, S5.
  repeat split; try apply I5.
  - rewrite Eh5. subst w3. cbn. rewrite Eh3. exact Ef.
  - rewrite Ep5. subst w3. cbn. rewrite Ep3. exact Ep.
  - rewrite Er5. subst w3. cbn. rewrite Er3. exact Er.
  - rewrite same_stopped1. subst w3. cbn. rewrite same_stopped0. exact Es.
  - rewrite same_canvasData1. subst w3. cbn. rewrite same_canvasData0. exact Ec.
  - rewrite same_random1. subst w3. cbn. rewrite same_random0. exact Ern.
  - rewrite same_canvasSizeDirty1. subst w3. cbn.
    rewrite same_canvasSizeDirty0. exact Ed.
  - exists j', k'. rewrite Et5. subst w3. cbn. rewrite Et3. subst w2. cbn.
    rewrite Et. repeat (rewrite <- app_assoc; cbn). reflexivity.
Qed.

(** ** [loop], branch by branch *)

Lemma loop_idle (time : number) (w : World) :
  negb (isDirty (this w)) || stopped (this w) = true ->
  loop time w = on_this (set_rafHandle 0%N) w.
Proof. unfold loop. now intros ->. Qed.

Lemma loop_dirty (time : number) (w : World) :
  isDirty (this w) = true -> stopped (this w) = false ->
  loop time w =
    let w1 := render time (frameDelta time w)
                (on_this (set_prevTime time) (on_this (set_isDirty false) w)) in
    on_this (set_rafHandle (N.succ (frameId (host w1))))
      (snd (requestAnimationFrame w1)).
Proof.
  unfold loop, frameDelta. intros -> ->. cbn. reflexivity.
Qed.

Lemma loop_dirty_inCallback (time : number) (w : World) :
  inCallback w -> isDirty (this w) = true -> stopped (this w) = false ->
  let h := N.succ (frameId (host w)) in
  frameQueue (host (loop time w)) = [h] /\
  rafHandle (this (loop time w)) = h /\
  frameId (host (loop time w)) = h /\
  prevTime (this (loop time w)) = time /\
  canvasSizeDirty (this (loop time w)) = false /\
  exists j k,
    trace (loop time w) =
      trace w ++ EvRender time (frameDelta time w) :: resizeEvents w
              ++ repeat EvMarkDirty j ++ EvNotify :: repeat EvMarkDirty k
              ++ [EvRequestFrame h].
Proof.
  intros I D S. rewrite (loop_dirty time w D S). cbn zeta.
  set (w0 := on_this (set_prevTime time) (on_this (set_isDirty false) w)).
  assert (I0 : inCallback w0) by exact I.
  destruct (render_inCallback time (frameDelta time w) w0 I0)
    as ((Iq & Ih) & Ef & Ep & Er & _ & _ & _ & Ed & j & k & Et).
  cbn. rewrite Iq, Ef. cbn.
  repeat split; auto.
  exists j, k. rewrite Et. cbn.
  repeat (rewrite <- app_assoc; cbn). reflexivity.
Qed.

Lemma pendingOK_single (w : World) (h : N) :
  h <> 0%N -> frameQueue (host w) = [h] -> rafHandle (this w) = h -> pendingOK w.
Proof.
  intros Hh Hq Hr. unfold pendingOK. rewrite Hq, Hr.
  apply N.eqb_neq in Hh. now rewrite Hh.
Qed.

Lemma fireFrame_pendingOK (time : number) (w : World) :
  pendingOK w -> pendingOK (fireFrame time w).
Proof.
  intros H. unfold fireFrame.
  destruct (frameQueue (host w)) as [|h q] eqn:Q; [exact H|].
  assert (I : inCallback (on_host (set_frameQueue q) w)).
  { unfold pendingOK in H. rewrite Q in H.
    destruct (rafHandle (this w) =? 0)%N eqn:E; [discriminate|].
    injection H as _ ->. split; [reflexivity|]. now apply N.eqb_neq. }
  set (w1 := on_host (set_frameQueue q) w) in *.
  destruct (negb (isDirty (this w1)) || stopped (this w1)) eqn:B.
  - rewrite (loop_idle time w1 B). unfold pendingOK. cbn. apply I.
  - apply orb_false_iff in B. destruct B as [B1 B2].
    apply negb_false_iff in B1.
    destruct (loop_dirty_inCallback time w1 I B1 B2) as (Eq & Er & _).
    eapply pendingOK_single; eauto. apply N.neq_succ_0.
Qed.

(** ** [setData] and the keyboard commands, up to their [markDirty] call *)

Lemma setData_shape (data : ICanvasData) (w : World) :
  exists w1,
    setData data w = markDirty w1 /\
    host w1 = host w /\
    canvasData (this w1) = Some data /\
    stopped (this w1) = stopped (this w) /\
    canvasSizeDirty (this w1) = canvasSizeDirty (this w) /\
    prevTime (this w1) = prevTime (this w) /\
    rafHandle (this w1) = rafHandle (this w) /\
    isDirty (this w1) = isDirty (this w) /\
    walkthrough (progState (this w1)) = walkthrough (progState (this w)) /\
    trace w1 = trace w ++ engineCalls data w.
Proof.
  unfold setData, engineCalls.
  destruct (dataAndModel data) as [dm|];
    [destruct (gptGpuModel (progState (this w))) as [m|] eqn:G|];
    cbn; rewrite ?G.
  - eexists; split; [reflexivity|]. cbn. now rewrite app_nil_r.
  - destruct (setModelInputData _ _ _) as [m r] eqn:E.
    eexists; split; [reflexivity|]. cbn.
    repeat (rewrite <- app_assoc; cbn). repeat split; reflexivity.
  - eexists; split; [reflexivity|]. cbn. now rewrite app_nil_r.
Qed.

Lemma keyCommand_cases (key : string) (w : World) :
  (key = " "%string /\
   keyCommand key w = emit EvPreventDefault (markDirty (on_walkthrough toggled w))) \/
  ((key = "Backspace"%string \/ key = "Delete"%string) /\
   keyCommand key w = markDirty (on_walkthrough rewound w)) \/
  ((key = "f"%string \/ key = "F"%string) /\
   keyCommand key w = markDirty (on_walkthrough skipped w)) \/
  ((forall c, key <> keyOf c) /\ keyCommand key w = w).
Proof.
  unfold keyCommand, key_is. cbn [existsb].
  destruct (String.eqb_spec key " ") as [->|N1].
  { left. split; reflexivity. }
  destruct (String.eqb_spec key "Backspace") as [->|N2].
  { right; left. split; [now left|reflexivity]. }
  destruct (String.eqb_spec key "Delete") as [->|N3].
  { right; left. split; [now right|reflexivity]. }
  destruct (String.eqb_spec key "f") as [->|N4].
  { right; right; left. split; [now left|reflexivity]. }
  destruct (String.eqb_spec key "F") as [->|N5].
  { right; right; left. split; [now right|reflexivity]. }
  right; right; right. split; [|reflexivity].
  intros []; assumption.
Qed.

(** ** Every execution keeps the pending-frame invariant *)

Lemma pendingOK_ext (w w' : World) :
  frameQueue (host w') = frameQueue (host w) ->
  rafHandle (this w') = rafHandle (this w) ->
  pendingOK w -> pendingOK w'.
Proof. unfold pendingOK. now intros -> ->. Qed.

Lemma setData_pendingOK (data : ICanvasData) (w : World) :
  pendingOK w -> pendingOK (setData data w).
Proof.
  intros H. destruct (setData_shape data w) as (w1 & -> & Eh & _ & _ & _ & _ & Er & _).
  apply markDirty_pendingOK.
  apply (pendingOK_ext w); [now rewrite Eh | exact Er | exact H].
Qed.

Lemma keyCommand_pendingOK (key : string) (w : World) :
  pendingOK w -> pendingOK (keyCommand key w).
Proof.
  intros H.
  destruct (keyCommand_cases key w) as [[_ ->]|[[_ ->]|[[_ ->]|[_ ->]]]];
    try exact H;
    try (apply markDirty_pendingOK; exact H).
Qed.

Lemma step_pendingOK (i : Input) (w : World) :
  pendingOK w -> pendingOK (step i w).
Proof.
  intros H. destruct i; cbn [step].
  - now apply setData_pendingOK.
  - now apply keyCommand_pendingOK.
  - apply markDirty_pendingOK. exact H.
  - now apply markDirty_pendingOK.
  - exact H.
  - now apply fireFrame_pendingOK.
  - exact H.
  - exact H.
  - exact H.
  - exact H.
Qed.

Lemma run_cons (i : Input) (ins : list Input) (w : World) :
  run (i :: ins) w = run ins (step i w).
Proof. reflexivity. Qed.

Lemma run_app (ins ins' : list Input) (w : World) :
  run (ins ++ ins') w = run ins' (run ins w).
Proof. unfold run. apply fold_left_app. Qed.

Lemma run_invariant (I : World -> Prop) :
  (forall i w, I w -> I (step i w)) ->
  forall ins w, I w -> I (run ins w).
Proof.
  intros Hstep ins. induction ins as [|i ins IH]; intros w Hw.
  - exact Hw.
  - rewrite run_cons. apply IH, Hstep, Hw.
Qed.

Lemma session_pendingOK (fontAtlasData : IFontAtlasData) (o : Host) :
  pendingOK (session fontAtlasData o).
Proof. reflexivity. Qed.

Lemma reachable_pendingOK (fontAtlasData : IFontAtlasData) (o : Host)
    (ins : list Input) :
  pendingOK (run ins (session fontAtlasData o)).
Proof.
  apply run_invariant; [exact step_pendingOK | apply session_pendingOK].
Qed.

Lemma run_markDirty (k : nat) (w : World) :
  run (repeat InMarkDirty k) w = callbacks k w.
Proof.
  revert w. induction k as [|k IH]; intros w; [reflexivity|].
  cbn [repeat]. rewrite run_cons, IH. cbn [step].
  unfold callbacks. now rewrite Nat.iter_succ_r.
Qed.

(** ** Counting the requests *)

Lemma requests_app (t u : list Event) :
  requests (t ++ u) = (requests t + requests u)%nat.
Proof. unfold requests. now rewrite filter_app, length_app. Qed.

Lemma markDirty_requests (w : World) :
  pendingOK w ->
  requests (trace (markDirty w)) =
    (requests (trace w) + if live w && noFramePending w then 1 else 0)%nat /\
  noFramePending (markDirty w) = noFramePending w && negb (live w).
Proof.
  intros H. unfold pendingOK in H. unfold noFramePending.
  destruct (live w) eqn:L.
  - destruct (N.eq_dec (rafHandle (this w)) 0) as [E|E].
    + rewrite (markDirty_idle w L E). rewrite E in H. cbn in H.
      cbn -[requests]. rewrite H. cbn -[requests].
      rewrite !requests_app. cbn. split; [lia|reflexivity].
    + rewrite (markDirty_pending w L E). cbn -[requests].
      apply N.eqb_neq in E. rewrite E in H. rewrite H. cbn -[requests].
      rewrite requests_app. cbn. split; [lia|reflexivity].
  - rewrite (markDirty_inert w L). cbn. split; [lia|].
    now rewrite andb_true_r.
Qed.

Lemma callbacks_requests (n : nat) (w : World) :
  pendingOK w ->
  requests (trace (callbacks (S n) w)) =
    (requests (trace w) + if live w && noFramePending w then 1 else 0)%nat /\
  noFramePending (callbacks (S n) w) = noFramePending w && negb (live w) /\
  pendingOK (callbacks (S n) w).
Proof.
  intros H. induction n as [|n IH].
  - destruct (markDirty_requests w H) as [E1 E2].
    repeat split; auto. now apply markDirty_pendingOK.
  - destruct IH as (E1 & E2 & E3).
    rewrite callbacks_S.
    destruct (markDirty_requests _ E3) as [F1 F2].
    rewrite F1, F2, E1, E2.
    rewrite (live_sameOutside _ _ (callbacks_sameOutside (S n) w)).
    repeat split.
    + destruct (live w), (noFramePending w); cbn; lia.
    + destruct (live w), (noFramePending w); reflexivity.
    + now apply markDirty_pendingOK.
Qed.

(** C1. However many times [markDirty] is called before the next frame
    callback fires, one frame callback is scheduled in total, not one per
    call.  In every execution of a session at most one frame callback is
    pending; [n + 1] successive [markDirty] calls request a callback only if
    none is pending (and the scheduler has data and is not stopped), and then
    exactly one; on a scheduler that has data and is not stopped exactly one
    callback is pending after the calls. *)
Theorem markDirty_schedules_one_frame
    (fontAtlasData : IFontAtlasData) (o : Host) (ins : list Input) (n : nat) :
  let w := run ins (session fontAtlasData o) in
  let w' := run (repeat InMarkDirty (S n)) w in
  (List.length (frameQueue (host w)) <= 1)%nat /\
  (List.length (frameQueue (host w')) <= 1)%nat /\
  requests (trace w') =
    (requests (trace w) + if live w && noFramePending w then 1 else 0)%nat /\
  (live w = true -> List.length (frameQueue (host w')) = 1%nat).
Proof.
  intros w w'.
  assert (H : pendingOK w) by apply reachable_pendingOK.
  subst w'. rewrite run_markDirty.
  destruct (callbacks_requests n w H) as (E1 & E2 & E3).
  assert (B : forall x, pendingOK x -> (List.length (frameQueue (host x)) <= 1)%nat).
  { intros x Hx. unfold pendingOK in Hx. rewrite Hx.
    destruct (rafHandle (this x) =? 0)%N; cbn; lia. }
  repeat split; auto.
  intros L. rewrite L in E2. rewrite andb_false_r in E2.
  unfold noFramePending in E2. unfold pendingOK in E3. rewrite E3 in *.
  destruct (rafHandle (this (callbacks (S n) w)) =? 0)%N; [discriminate|reflexivity].
Qed.

(** ** Reading the trace of a frame *)

Lemma renders_app (t u : list Event) : renders (t ++ u) = renders t ++ renders u.
Proof.
  induction t as [|e t IH]; [reflexivity|].
  destruct e; cbn; now rewrite ?IH.
Qed.

Lemma resizes_app (t u : list Event) : resizes (t ++ u) = resizes t ++ resizes u.
Proof.
  induction t as [|e t IH]; [reflexivity|].
  destruct e; cbn; now rewrite ?IH.
Qed.

Lemma renders_markDirty (j : nat) : renders (repeat (@EvMarkDirty T) j) = [].
Proof. induction j; [reflexivity|exact IHj]. Qed.

Lemma resizes_markDirty (j : nat) : resizes (repeat (@EvMarkDirty T) j) = [].
Proof. induction j; [reflexivity|exact IHj]. Qed.

Lemma renders_resizeEvents (w : World) : renders (resizeEvents w) = [].
Proof. unfold resizeEvents. now destruct (canvasSizeDirty (this w)). Qed.

(** The state in which the host runs a pending callback of an execution. *)
Lemma fireFrame_reachable (w : World) (time : number) :
  pendingOK w -> frameQueue (host w) <> [] ->
  exists w1,
    fireFrame time w = loop time w1 /\ inCallback w1 /\
    this w1 = this w /\ trace w1 = trace w /\
    canvasEl (host w1) = canvasEl (host w) /\
    boundingClientRect (host w1) = boundingClientRect (host w) /\
    devicePixelRatio (host w1) = devicePixelRatio (host w) /\
    frameId (host w1) = frameId (host w).
Proof.
  intros H Q. unfold fireFrame.
  destruct (frameQueue (host w)) as [|h q] eqn:Eq; [congruence|].
  exists (on_host (set_frameQueue q) w). split; [reflexivity|].
  unfold pendingOK in H. rewrite Eq in H.
  destruct (rafHandle (this w) =? 0)%N eqn:E; [discriminate|].
  injection H as _ ->. repeat split. now apply N.eqb_neq.
Qed.

(** C2. On a dirty frame callback the render pass receives
    [dt = time - prevTime] when that difference is at least 8, and 16 when it
    is below 8, in particular when it is zero or negative; [prevTime] becomes
    the timestamp of the callback in both cases.  On numbers (anything but
    NaN) the two cases are exhaustive. *)
Theorem delta_time_floor
    (fontAtlasData : IFontAtlasData) (o : Host) (ins : list Input) (time : number) :
  let w := run ins (session fontAtlasData o) in
  let d := time - prevTime (this w) in
  frameQueue (host w) <> [] ->
  isDirty (this w) = true -> stopped (this w) = false ->
  exists dt,
    renders (trace (fireFrame time w)) = renders (trace w) ++ [(time, dt)] /\
    ((8 <=? d) = true -> dt = d) /\
    ((d <? 8) = true -> dt = 16) /\
    ((d <? 0) = true \/ (d =? 0) = true -> dt = 16) /\
    (PrimFloat.is_nan d = false -> (8 <=? d) = true \/ (d <? 8) = true) /\
    prevTime (this (fireFrame time w)) = time.
Proof.
  intros w d Q D S.
  assert (H : pendingOK w) by apply reachable_pendingOK.
  destruct (fireFrame_reachable w time H Q) as (w1 & -> & I & Et & Etr & _).
  assert (D1 : isDirty (this w1) = true) by now rewrite Et.
  assert (S1 : stopped (this w1) = false) by now rewrite Et.
  destruct (loop_dirty_inCallback time w1 I D1 S1)
    as (_ & _ & _ & Ep & _ & j & k & Etrace).
  exists (frameDelta time w1). repeat split.
  - rewrite Etrace, Etr. rewrite renders_app. cbn [renders].
    rewrite !renders_app, renders_resizeEvents. cbn.
    now rewrite !renders_app, !renders_markDirty.
  - unfold frameDelta. rewrite Et. fold d. intros G.
    now rewrite (FloatFacts.leb_not_ltb _ _ G).
  - unfold frameDelta. rewrite Et. fold d. now intros ->.
  - unfold frameDelta. rewrite Et. fold d. intros Z.
    now rewrite (FloatFacts.not_positive_below_eight d Z).
  - intros N. destruct (FloatFacts.ltb_or_leb d 8 N eq_refl); auto.
  - exact Ep.
Qed.

(** ** The walkthrough commands *)

Lemma markDirty_progState (w : World) :
  progState (this (markDirty w)) = progState (this w).
Proof. apply (same_progState _ _ (markDirty_sameOutside w)). Qed.

Lemma command_progState (c : Command) (w : World) :
  progState (this (command c w)) =
    set_walkthrough
      match c with Toggle => toggled | Reset => rewound | SkipToEnd => skipped end
      (progState (this w)).
Proof.
  unfold command.
  destruct (keyCommand_cases (keyOf c) w) as [[K ->]|[[K ->]|[[K ->]|[K _]]]].
  - destruct c; try discriminate K. cbn [this emit]. now rewrite markDirty_progState.
  - destruct c; try (destruct K; discriminate). now rewrite markDirty_progState.
  - destruct c; try (destruct K; discriminate). now rewrite markDirty_progState.
  - now destruct (K c).
Qed.

(** C3. Toggle negates [running] and changes no other field; Reset sets
    [running] to false and [time] to 0; Skip-to-end sets [running] to false and
    [time] to [phaseLength]; none of them changes [phaseLength], the rest of
    the walkthrough or the rest of the program state.  The keys Delete and F
    do what Backspace and f do.  From [{running: false, time: 0, phaseLength:
    10}], Toggle gives [running: true], then Reset gives [{running: false,
    time: 0}], then Skip-to-end gives [{running: false, time: 10}]. *)
Theorem walkthrough_commands (w : World) (rest : WalkthroughRest) :
  let t := walkthroughOf w in
  let others (p : IProgramState) := (render_ p, gptGpuModel p, programRest p) in
  walkthroughOf (command Toggle w) =
    {| running := negb (running t); time := time t;
       phaseLength := phaseLength t; walkthroughRest := walkthroughRest t |} /\
  walkthroughOf (command Reset w) =
    {| running := false; time := 0;
       phaseLength := phaseLength t; walkthroughRest := walkthroughRest t |} /\
  walkthroughOf (command SkipToEnd w) =
    {| running := false; time := phaseLength t;
       phaseLength := phaseLength t; walkthroughRest := walkthroughRest t |} /\
  (forall c, others (progState (this (command c w))) = others (progState (this w))) /\
  keyCommand "Delete" w = command Reset w /\
  keyCommand "F" w = command SkipToEnd w /\
  let start :=
    {| running := false; time := 0; phaseLength := 10; walkthroughRest := rest |} in
  let w1 := command Toggle (on_walkthrough (fun _ => start) w) in
  let w2 := command Reset w1 in
  let w3 := command SkipToEnd w2 in
  walkthroughOf w1 =
    {| running := true; time := 0; phaseLength := 10; walkthroughRest := rest |} /\
  walkthroughOf w2 =
    {| running := false; time := 0; phaseLength := 10; walkthroughRest := rest |} /\
  walkthroughOf w3 =
    {| running := false; time := 10; phaseLength := 10; walkthroughRest := rest |}.
Proof.
  intros t others. unfold walkthroughOf.
  repeat split; intros; rewrite ?command_progState; reflexivity.
Qed.

(** Applying [markDirty] twice in a row is applying it once, as far as the
    scheduler and the host are concerned. *)
Lemma markDirty_twice (w : World) :
  this (markDirty (markDirty w)) = this (markDirty w) /\
  host (markDirty (markDirty w)) = host (markDirty w).
Proof.
  destruct (live w) eqn:L.
  - pose proof (rafHandle_markDirty w L) as Hh.
    assert (L' : live (markDirty w) = true) by now rewrite live_markDirty.
    rewrite (markDirty_pending (markDirty w) L' Hh).
    destruct (N.eq_dec (rafHandle (this w)) 0) as [E|E].
    + rewrite (markDirty_idle w L E). split; reflexivity.
    + rewrite (markDirty_pending w L E). split; reflexivity.
  - now rewrite !(markDirty_inert w L).
Qed.

Lemma on_walkthrough_markDirty (f : IWalkthrough -> IWalkthrough) (w : World) :
  on_walkthrough f (markDirty w) = markDirty (on_walkthrough f w).
Proof.
  unfold markDirty. cbn.
  destruct (isNull (canvasData (this w)) || stopped (this w)); [reflexivity|].
  cbn. destruct (rafHandle (this w) =? 0)%N; reflexivity.
Qed.

Lemma command_twice (f : IWalkthrough -> IWalkthrough) (w : World) :
  (forall t, f (f t) = f t) ->
  let once := markDirty (on_walkthrough f w) in
  let twice := markDirty (on_walkthrough f once) in
  this twice = this once /\ host twice = host once.
Proof.
  intros Hf once twice. subst twice once.
  rewrite on_walkthrough_markDirty.
  replace (on_walkthrough f (on_walkthrough f w)) with (on_walkthrough f w).
  - apply markDirty_twice.
  - unfold on_walkthrough, on_progState, on_this, set_walkthrough. cbn.
    now rewrite Hf.
Qed.

(** C5, as the code has it.  Reset and Skip-to-end are idempotent: a second
    application changes neither the walkthrough, nor the scheduler, nor the
    host.  Toggle is an involution: a second application restores the
    walkthrough.  Each command is defined in every state, and the key handler
    does nothing while there is no [canvasRender]. *)
Theorem commands_applied_twice (w : World) :
  let twice c := command c (command c w) in
  (this (twice Reset) = this (command Reset w) /\
   host (twice Reset) = host (command Reset w)) /\
  (this (twice SkipToEnd) = this (command SkipToEnd w) /\
   host (twice SkipToEnd) = host (command SkipToEnd w)) /\
  walkthroughOf (twice Toggle) = walkthroughOf w /\
  (forall c, handleKeyDown (keyOf c) (Some w) = Some (command c w)) /\
  (forall key, handleKeyDown key None = None).
Proof.
  intros twice. subst twice. cbn beta.
  split; [|split; [|split; [|split]]].
  - apply (command_twice rewound w). reflexivity.
  - apply (command_twice skipped w). reflexivity.
  - unfold walkthroughOf. rewrite !command_progState. cbn.
    destruct (walkthrough (progState (this w))) as [[|] tm pl rest]; reflexivity.
  - reflexivity.
  - reflexivity.
Qed.

(** ** After [destroy] *)

Lemma step_stopped (i : Input) (w : World) :
  stopped (this w) = true -> stopped (this (step i w)) = true.
Proof.
  intros S. destruct i; cbn [step]; try exact S.
  - destruct (setData_shape data w) as (w1 & -> & _ & _ & Es & _).
    rewrite (same_stopped _ _ (markDirty_sameOutside w1)). congruence.
  - destruct (keyCommand_cases key w) as [[_ ->]|[[_ ->]|[[_ ->]|[_ ->]]]];
      cbn [this emit];
      rewrite ?(same_stopped _ _ (markDirty_sameOutside _)); exact S.
  - unfold resizeObserved.
    rewrite (same_stopped _ _ (markDirty_sameOutside _)). exact S.
  - rewrite (same_stopped _ _ (markDirty_sameOutside _)). exact S.
  - unfold fireFrame. destruct (frameQueue (host w)); [exact S|].
    rewrite loop_idle; [exact S|]. cbn. rewrite S. apply orb_true_r.
  - reflexivity.
Qed.

(** C4, as the code has it.  Once [destroy] has been called, whatever
    happens next, a frame callback that fires clears the recorded handle
    ([rafHandle := 0]) and does nothing else: every other field of the
    scheduler, the host (so no callback is requested) and the trace (so no
    render pass, no resize) are left as they were. *)
Theorem frame_after_destroy (w : World) (ins : list Input) (time : number) :
  let w' := run ins (destroy w) in
  stopped (this w') = true /\
  loop time w' = on_this (set_rafHandle 0%N) w' /\
  host (loop time w') = host w' /\
  trace (loop time w') = trace w' /\
  isDirty (this (loop time w')) = isDirty (this w') /\
  prevTime (this (loop time w')) = prevTime (this w') /\
  canvasSizeDirty (this (loop time w')) = canvasSizeDirty (this w') /\
  progState (this (loop time w')) = progState (this w').
Proof.
  intros w'.
  assert (S : stopped (this w') = true).
  { subst w'. apply (run_invariant (fun x => stopped (this x) = true)).
    - exact step_stopped.
    - reflexivity. }
  assert (E : loop time w' = on_this (set_rafHandle 0%N) w').
  { apply loop_idle. rewrite S. apply orb_true_r. }
  rewrite E. repeat split; auto.
Qed.

(** ** Before data is bound *)

Lemma unbound_inert (c : number) (w : World) : unbound c w -> live w = false.
Proof. intros (H & _). unfold live. now rewrite H. Qed.

Lemma step_unbound (c : number) (i : Input) (w : World) :
  notSetData i = true -> unbound c w -> unbound c (step i w).
Proof.
  intros Hi U. pose proof (unbound_inert c w U) as L.
  destruct i; cbn [step]; try discriminate Hi; try exact U.
  - destruct (keyCommand_cases key w) as [[_ ->]|[[_ ->]|[[_ ->]|[_ ->]]]];
      try (rewrite markDirty_inert; [exact U|exact L]); try exact U.
    rewrite markDirty_inert by exact L.
    destruct U as (U1 & U2 & U3 & U4 & U5 & U6 & U7).
    repeat split; auto; cbn [trace emit on_walkthrough on_progState on_this].
    + rewrite requests_app, U6. reflexivity.
    + rewrite renders_app, U7. reflexivity.
  - unfold resizeObserved. rewrite markDirty_inert; [exact U|exact L].
  - rewrite markDirty_inert; [exact U|exact L].
  - unfold fireFrame. pose proof U as (_ & _ & _ & _ & Q & _).
    rewrite Q. exact U.
Qed.

Lemma run_unbound (c : number) (ins : list Input) (w : World) :
  forallb notSetData ins = true -> unbound c w -> unbound c (run ins w).
Proof.
  revert w. induction ins as [|i ins IH]; intros w H U; [exact U|].
  cbn [forallb] in H. apply andb_true_iff in H. destruct H as [Hi H].
  rewrite run_cons. apply IH; [exact H|]. now apply step_unbound.
Qed.

(** C10. [markDirty] does nothing when the scheduler has no canvas data or
    has been stopped: the world it returns is the world it was given.  The
    session is constructed without canvas data, and as long as [setData] has
    not been called nothing that happens (keyboard commands, resize
    notifications, [markDirty] calls, ...) binds data, raises the dirty flag,
    moves [prevTime], or requests a frame callback; no render pass occurs. *)
Theorem markDirty_needs_data
    (fontAtlasData : IFontAtlasData) (o : Host) (ins : list Input) (w : World) :
  (canvasData (this w) = None \/ stopped (this w) = true -> markDirty w = w) /\
  canvasData (this (session fontAtlasData o)) = None /\
  (forallb notSetData ins = true ->
   let w' := run ins (session fontAtlasData o) in
   canvasData (this w') = None /\ isDirty (this w') = false /\
   prevTime (this w') = clock o /\ rafHandle (this w') = 0%N /\
   frameQueue (host w') = [] /\
   requests (trace w') = 0%nat /\ renders (trace w') = []).
Proof.
  split; [|split].
  - intros H. apply markDirty_inert. unfold live.
    destruct H as [-> | ->]; [reflexivity|]. now rewrite orb_true_r.
  - reflexivity.
  - intros H w'. subst w'. apply run_unbound; [exact H|].
    repeat split.
Qed.

(** ** What a call can add to the trace *)

Lemma markDirty_trace (w : World) :
  exists evs, trace (markDirty w) = trace w ++ evs /\ forallb isSched evs = true.
Proof.
  destruct (live w) eqn:L.
  - destruct (N.eq_dec (rafHandle (this w)) 0) as [E|E].
    + rewrite (markDirty_idle w L E). cbn.
      exists [EvMarkDirty; EvRequestFrame (N.succ (frameId (host w)))].
      now rewrite <- app_assoc.
    + rewrite (markDirty_pending w L E). cbn. now exists [EvMarkDirty].
  - rewrite (markDirty_inert w L). exists []. now rewrite app_nil_r.
Qed.

Lemma callbacks_trace (k : nat) (w : World) :
  exists evs, trace (callbacks k w) = trace w ++ evs /\ forallb isSched evs = true.
Proof.
  induction k as [|k (evs & E & F)].
  - exists []. cbn. now rewrite app_nil_r.
  - rewrite callbacks_S.
    destruct (markDirty_trace (callbacks k w)) as (evs' & E' & F').
    exists (evs ++ evs'). rewrite E', E, app_assoc, forallb_app, F, F'. now split.
Qed.

Lemma sched_resizes (evs : list Event) :
  forallb isSched evs = true -> resizes evs = [].
Proof.
  induction evs as [|e evs IH]; [reflexivity|].
  cbn [forallb]. intros H. apply andb_true_iff in H. destruct H as [He H].
  destruct e; try discriminate He; cbn; auto.
Qed.

Lemma sched_renders (evs : list Event) :
  forallb isSched evs = true -> renders evs = [].
Proof.
  induction evs as [|e evs IH]; [reflexivity|].
  cbn [forallb]. intros H. apply andb_true_iff in H. destruct H as [He H].
  destruct e; try discriminate He; cbn; auto.
Qed.

Lemma render_shape (time dt : number) (w : World) :
  exists evs1 evs2,
    trace (render time dt w) =
      trace w ++ EvRender time dt :: resizeEvents w ++ evs1 ++ EvNotify :: evs2 /\
    forallb isSched evs1 = true /\ forallb isSched evs2 = true /\
    canvasSizeDirty (this (render time dt w)) = false /\
    canvasEl (host (render time dt w)) = reconciled w.
Proof.
  unfold render.
  set (w1 := if canvasSizeDirty (this (emit (EvRender time dt) w)) then _ else _).
  assert (I1 : canvasSizeDirty (this w1) = false /\
               canvasEl (host w1) = reconciled w /\
               trace w1 = trace w ++ EvRender time dt :: resizeEvents w).
  { subst w1. unfold resizeEvents, reconciled. cbn.
    destruct (canvasSizeDirty (this w)) eqn:D; cbn;
      rewrite <- ?app_assoc; repeat split; auto. }
  clearbody w1. destruct I1 as (Ed & Ec & Et).
  destruct (runProgram _ _) as [p j].
  set (w2 := on_progState (fun _ => p) w1).
  destruct (callbacks_trace j w2) as (evs1 & Et3 & F1).
  pose proof (callbacks_sameOutside j w2) as S3.
  destruct (htmlSubs_notify _) as [p' k].
  set (w3 := emit EvNotify (on_progState (fun _ => p') (callbacks j w2))).
  destruct (callbacks_trace k w3) as (evs2 & Et5 & F2).
  pose proof (callbacks_sameOutside k w3) as S5.
  destruct S3, S5.
  exists evs1, evs2. repeat split; auto.
  - rewrite Et5. subst w3. cbn. rewrite Et3. subst w2. cbn.
    rewrite Et. repeat (rewrite <- app_assoc; cbn). reflexivity.
  - rewrite same_canvasSizeDirty1. subst w3. cbn.
    rewrite same_canvasSizeDirty0. exact Ed.
  - rewrite same_canvasEl1. subst w3. cbn. rewrite same_canvasEl0. exact Ec.
Qed.

Lemma render_resizes (time dt : number) (w : World) :
  resizes (trace (render time dt w)) = resizes (trace w) ++ resizes (resizeEvents w).
Proof.
  destruct (render_shape time dt w) as (evs1 & evs2 & -> & F1 & F2 & _).
  rewrite resizes_app. cbn [resizes]. rewrite !resizes_app. cbn [resizes].
  now rewrite (sched_resizes _ F1), (sched_resizes _ F2), app_nil_r.
Qed.

(** ** Resize notifications *)

Lemma resizeObserved_facts (w : World) :
  canvasSizeDirty (this (resizeObserved w)) = true /\
  boundingClientRect (host (resizeObserved w)) = boundingClientRect (host w) /\
  devicePixelRatio (host (resizeObserved w)) = devicePixelRatio (host w) /\
  resizes (trace (resizeObserved w)) = resizes (trace w) /\
  renders (trace (resizeObserved w)) = renders (trace w).
Proof.
  unfold resizeObserved.
  set (w1 := on_this (set_canvasSizeDirty true) w).
  destruct (markDirty_sameOutside w1).
  destruct (markDirty_trace w1) as (evs & E & F).
  rewrite same_canvasSizeDirty0, same_box0, same_ratio0, E.
  rewrite resizes_app, renders_app, (sched_resizes _ F), (sched_renders _ F).
  rewrite !app_nil_r. repeat split.
Qed.

Lemma notifications_facts (boxes : list DOMRect) (w : World) :
  let w1 := run (flat_map resizeTo boxes) w in
  devicePixelRatio (host w1) = devicePixelRatio (host w) /\
  resizes (trace w1) = resizes (trace w) /\
  renders (trace w1) = renders (trace w).
Proof.
  revert w. induction boxes as [|b boxes IH]; intros w; [now cbn|].
  cbn [flat_map resizeTo app]. rewrite !run_cons. cbn [step].
  destruct (IH (resizeObserved (on_host (set_boundingClientRect b) w)))
    as (E1 & E2 & E3).
  cbn zeta. rewrite E1, E2, E3.
  destruct (resizeObserved_facts (on_host (set_boundingClientRect b) w))
    as (_ & _ & F1 & F2 & F3).
  rewrite F1, F2, F3. repeat split.
Qed.

Lemma isDirty_markDirty (w : World) :
  live w = true -> isDirty (this (markDirty w)) = true.
Proof.
  intros L. destruct (N.eq_dec (rafHandle (this w)) 0) as [E|E].
  - now rewrite (markDirty_idle w L E).
  - now rewrite (markDirty_pending w L E).
Qed.

Lemma fireFrame_resizes (time : number) (w : World) :
  frameQueue (host w) <> [] ->
  isDirty (this w) = true -> stopped (this w) = false ->
  resizes (trace (fireFrame time w)) =
    resizes (trace w) ++ resizes (resizeEvents w).
Proof.
  intros Q D S. unfold fireFrame.
  destruct (frameQueue (host w)) as [|h q]; [congruence|].
  rewrite loop_dirty by assumption. cbn zeta. cbn [trace on_this snd requestAnimationFrame emit on_host].
  rewrite resizes_app, render_resizes. cbn. now rewrite app_nil_r.
Qed.

(** C6. However many resize notifications arrive before the next render
    pass (here one per box of [earlier], then one for the box [latest]), that
    render pass resizes the backing surface exactly once, to the box the
    element has when the pass runs (the latest one) times the device pixel
    ratio, and clears the size-dirty flag; the notifications themselves
    resize nothing, and a render pass that finds the flag clear resizes
    nothing. *)
Theorem resize_coalescing
    (w : World) (earlier : list DOMRect) (latest : DOMRect) (time dt : number) :
  let w1 := run (flat_map resizeTo (earlier ++ [latest])) w in
  let scale := devicePixelRatio (host w) in
  let w2 := render time dt w1 in
  resizes (trace w1) = resizes (trace w) /\
  boundingClientRect (host w1) = latest /\
  resizes (trace w2) =
    resizes (trace w1) ++ [(rect_width latest * scale, rect_height latest * scale)] /\
  canvasEl (host w2) =
    {| width := toCanvasSize (rect_width latest * scale);
       height := toCanvasSize (rect_height latest * scale) |} /\
  canvasSizeDirty (this w2) = false /\
  (forall time' dt', resizes (trace (render time' dt' w2)) = resizes (trace w2)) /\
  (forall w3 time' dt',
     canvasSizeDirty (this w3) = false ->
     resizes (trace (render time' dt' w3)) = resizes (trace w3)) /\
  (pendingOK w -> live w1 = true ->
   resizes (trace (fireFrame time w1)) =
     resizes (trace w1) ++ [(rect_width latest * scale, rect_height latest * scale)]).
Proof.
  intros w1 scale w2.
  assert (Quiet : forall x time' dt',
             canvasSizeDirty (this x) = false ->
             resizes (trace (render time' dt' x)) = resizes (trace x)).
  { intros x time' dt' D. rewrite render_resizes. unfold resizeEvents.
    rewrite D. apply app_nil_r. }
  assert (F : canvasSizeDirty (this w1) = true /\
              boundingClientRect (host w1) = latest /\
              devicePixelRatio (host w1) = scale /\
              resizes (trace w1) = resizes (trace w)).
  { subst w1. rewrite flat_map_app, run_app. cbn [flat_map resizeTo app].
    rewrite !run_cons. cbn [run fold_left step].
    set (w0 := run (flat_map resizeTo earlier) w).
    destruct (notifications_facts earlier w) as (E1 & E2 & _). fold w0 in E1, E2.
    destruct (resizeObserved_facts (on_host (set_boundingClientRect latest) w0))
      as (G1 & G2 & G3 & G4 & _).
    rewrite G1, G2, G3, G4. cbn. now rewrite E1, E2. }
  destruct F as (F1 & F2 & F3 & F4).
  destruct (render_shape time dt w1) as (_ & _ & _ & _ & _ & D2 & C2).
  fold w2 in D2, C2.
  assert (R : resizes (resizeEvents w1) =
              [(rect_width latest * scale, rect_height latest * scale)]).
  { unfold resizeEvents. now rewrite F1, F2, F3. }
  split; [exact F4|]. split; [exact F2|].
  split; [subst w2; now rewrite render_resizes, R|].
  split; [rewrite C2; unfold reconciled; now rewrite F1, F2, F3|].
  split; [exact D2|].
  split; [intros; now apply Quiet|].
  split; [exact Quiet|].
  intros K L. rewrite <- R.
  assert (W : exists x, w1 = markDirty x /\ pendingOK x /\ live x = true).
  { clear - K L. subst w1. rewrite flat_map_app, run_app in *.
    cbn [flat_map resizeTo app] in *. rewrite !run_cons in *.
    cbn [run fold_left step] in *. unfold resizeObserved in *.
    eexists. split; [reflexivity|]. split.
    - apply (pendingOK_ext (run (flat_map resizeTo earlier) w)); try reflexivity.
      apply run_invariant; [exact step_pendingOK|exact K].
    - rewrite live_markDirty in L. exact L. }
  destruct W as (x & Ex & Kx & Lx).
  apply fireFrame_resizes.
  - pose proof (markDirty_pendingOK x Kx) as K1.
    pose proof (rafHandle_markDirty x Lx) as H1.
    rewrite <- Ex in K1, H1. unfold pendingOK in K1. rewrite K1.
    apply N.eqb_neq in H1. now rewrite H1.
  - rewrite Ex. now apply isDirty_markDirty.
  - unfold live in L. apply negb_true_iff, orb_false_iff in L. apply L.
Qed.

(** ** Render passes and the dirty flag *)

Lemma sched_quiet (evs : list Event) : forallb isSched evs = true -> quiet evs = true.
Proof.
  unfold quiet. induction evs as [|e evs IH]; [reflexivity|].
  cbn [forallb]. intros H. apply andb_true_iff in H. destruct H as [He H].
  rewrite (IH H). destruct e; try discriminate He; reflexivity.
Qed.

Lemma quiet_app (a b : list Event) : quiet (a ++ b) = quiet a && quiet b.
Proof. apply forallb_app. Qed.

Lemma dirtied_app (t evs : list Event) :
  dirtiedSinceRender t -> quiet evs = true -> dirtiedSinceRender (t ++ evs).
Proof.
  intros (b & a & -> & Q) Qe. exists b, (a ++ evs). split.
  - now rewrite <- app_assoc.
  - fold (quiet (a ++ evs)). rewrite quiet_app. fold (quiet a) in Q. now rewrite Q, Qe.
Qed.

Lemma dirtied_mark (t evs : list Event) :
  quiet evs = true -> dirtiedSinceRender (t ++ EvMarkDirty :: evs).
Proof. intros Q. now exists t, evs. Qed.

Lemma justified_app (t evs : list Event) :
  rendersJustified t -> quiet evs = true -> rendersJustified (t ++ evs).
Proof.
  intros J Q before time dt after E.
  apply app_eq_app in E. destruct E as (l & [[E1 E2]|[E1 E2]]).
  - destruct l as [|e l].
    + cbn in E2. rewrite <- E2 in Q. discriminate Q.
    + cbn in E2. injection E2 as <- _. now apply (J before time dt l).
  - rewrite E2, quiet_app in Q. apply andb_true_iff in Q.
    destruct Q as [_ Q]. discriminate Q.
Qed.

Lemma justified_render (t : list Event) (time dt : number) :
  rendersJustified t -> dirtiedSinceRender t ->
  rendersJustified (t ++ [EvRender time dt]).
Proof.
  intros J D before time' dt' after E.
  apply app_eq_app in E. destruct E as (l & [[E1 E2]|[E1 E2]]).
  - destruct l as [|e l].
    + rewrite app_nil_r in E1. now subst before.
    + cbn in E2. injection E2 as <- _. now apply (J before time' dt' l).
  - destruct l as [|e l].
    + rewrite app_nil_r in E1. now subst before.
    + cbn in E2. injection E2 as _ E2. now destruct l.
Qed.

Lemma traceOK_quiet (w w' : World) (evs : list Event) :
  traceOK w -> trace w' = trace w ++ evs -> quiet evs = true ->
  (isDirty (this w') = true -> isDirty (this w) = true) -> traceOK w'.
Proof.
  intros [F J] E Q D. split; rewrite E.
  - intros H. apply dirtied_app; auto.
  - now apply justified_app.
Qed.

Lemma traceOK_same (w w' : World) :
  traceOK w -> trace w' = trace w -> isDirty (this w') = isDirty (this w) ->
  traceOK w'.
Proof.
  intros H Et Ed. apply (traceOK_quiet w w' []); auto.
  - now rewrite app_nil_r.
  - now rewrite Ed.
Qed.

Lemma markDirty_traceOK (w : World) : traceOK w -> traceOK (markDirty w).
Proof.
  intros [F J]. destruct (live w) eqn:L.
  - destruct (N.eq_dec (rafHandle (this w)) 0) as [E|E].
    + rewrite (markDirty_idle w L E). split; cbn; rewrite <- app_assoc.
      * intros _. now apply dirtied_mark.
      * now apply justified_app.
    + rewrite (markDirty_pending w L E). split; cbn.
      * intros _. now apply dirtied_mark.
      * now apply justified_app.
  - rewrite (markDirty_inert w L). now split.
Qed.

Lemma callbacks_traceOK (k : nat) (w : World) : traceOK w -> traceOK (callbacks k w).
Proof.
  intros H. induction k as [|k IH]; [exact H|].
  rewrite callbacks_S. now apply markDirty_traceOK.
Qed.

Lemma resizeEvents_quiet (w : World) : quiet (resizeEvents w) = true.
Proof. unfold resizeEvents. now destruct (canvasSizeDirty (this w)). Qed.

Lemma render_traceOK (time dt : number) (w : World) :
  isDirty (this w) = false -> rendersJustified (trace w) ->
  dirtiedSinceRender (trace w) -> traceOK (render time dt w).
Proof.
  intros D J S. unfold render.
  set (w1 := if canvasSizeDirty (this (emit (EvRender time dt) w)) then _ else _).
  assert (I1 : traceOK w1).
  { assert (I0 : traceOK (emit (EvRender time dt) w)).
    { split; cbn.
      - rewrite D. discriminate.
      - now apply justified_render. }
    subst w1. cbn.
    destruct (canvasSizeDirty (this w)); [|exact I0].
    eapply (traceOK_quiet _ _ [EvResize _ _] I0); cbn; auto. }
  clearbody w1.
  destruct (runProgram _ _) as [p j].
  set (w2 := on_progState (fun _ => p) w1).
  assert (I2 : traceOK w2) by (apply (traceOK_same w1); auto).
  apply (callbacks_traceOK j) in I2.
  destruct (htmlSubs_notify _) as [p' k].
  apply callbacks_traceOK.
  eapply (traceOK_quiet _ _ [EvNotify] I2); cbn; auto.
Qed.

Lemma loop_traceOK (time : number) (w : World) : traceOK w -> traceOK (loop time w).
Proof.
  intros H.
  destruct (negb (isDirty (this w)) || stopped (this w)) eqn:B.
  - rewrite (loop_idle time w B). apply (traceOK_same w); auto.
  - apply orb_false_iff in B. destruct B as [B1 B2].
    apply negb_false_iff in B1.
    rewrite (loop_dirty time w B1 B2). cbn zeta.
    set (w0 := on_this (set_prevTime time) (on_this (set_isDirty false) w)).
    destruct H as [F J].
    pose proof (render_traceOK time (frameDelta time w) w0 eq_refl J (F B1)) as R.
    eapply (traceOK_quiet _ _ [EvRequestFrame _] R); cbn; auto.
Qed.

Lemma step_traceOK (i : Input) (w : World) : traceOK w -> traceOK (step i w).
Proof.
  intros H. destruct i; cbn [step]; try (apply (traceOK_same w); now auto).
  - destruct (setData_shape data w)
      as (w1 & -> & _ & _ & _ & _ & _ & _ & Ed & _ & Et).
    apply markDirty_traceOK.
    apply (traceOK_quiet w w1 (engineCalls data w)); auto.
    + unfold engineCalls.
      destruct (dataAndModel data); [|reflexivity].
      now destruct (gptGpuModel (progState (this w))).
    + now rewrite Ed.
  - destruct (keyCommand_cases key w) as [[_ ->]|[[_ ->]|[[_ ->]|[_ ->]]]];
      try exact H.
    + eapply (traceOK_quiet _ _ [EvPreventDefault]); cbn; auto.
      apply markDirty_traceOK. apply (traceOK_same w); auto.
    + apply markDirty_traceOK. apply (traceOK_same w); auto.
    + apply markDirty_traceOK. apply (traceOK_same w); auto.
  - apply markDirty_traceOK. apply (traceOK_same w); auto.
  - now apply markDirty_traceOK.
  - unfold fireFrame. destruct (frameQueue (host w)); [exact H|].
    apply loop_traceOK. apply (traceOK_same w); auto.
Qed.

Lemma reachable_traceOK (fontAtlasData : IFontAtlasData) (o : Host)
    (ins : list Input) :
  traceOK (run ins (session fontAtlasData o)).
Proof.
  apply run_invariant; [exact step_traceOK|].
  split; cbn; [discriminate|].
  intros before time dt after E. now destruct before.
Qed.

(** C7. A frame callback that finds the dirty flag clear, or the scheduler
    destroyed, requests no further frame callback: it records that none is
    pending, and none is.  And in every execution, each render pass comes
    after a [markDirty] call made since the previous render pass began (that
    is, since the flag was last cleared). *)
Theorem no_idle_renewal
    (fontAtlasData : IFontAtlasData) (o : Host) (ins : list Input) (time : number) :
  let w := run ins (session fontAtlasData o) in
  (isDirty (this w) = false \/ stopped (this w) = true ->
   loop time w = on_this (set_rafHandle 0%N) w /\
   requests (trace (fireFrame time w)) = requests (trace w) /\
   renders (trace (fireFrame time w)) = renders (trace w) /\
   frameQueue (host (fireFrame time w)) = [] /\
   (frameQueue (host w) <> [] -> rafHandle (this (fireFrame time w)) = 0%N)) /\
  (forall before time' dt after,
     trace w = before ++ EvRender time' dt :: after ->
     dirtiedSinceRender before).
Proof.
  intros w. split.
  - intros H.
    assert (B : forall x, this x = this w ->
                negb (isDirty (this x)) || stopped (this x) = true).
    { intros x ->. destruct H as [-> | ->]; [reflexivity|apply orb_true_r]. }
    assert (K : pendingOK w) by apply reachable_pendingOK.
    split; [apply loop_idle, B; reflexivity|].
    unfold fireFrame. destruct (frameQueue (host w)) as [|h q] eqn:Q.
    + rewrite Q. repeat split. congruence.
    + rewrite loop_idle by (apply B; reflexivity). cbn.
      unfold pendingOK in K. rewrite Q in K.
      destruct (rafHandle (this w) =? 0)%N; [discriminate|].
      injection K as _ ->. repeat split.
  - apply (reachable_traceOK fontAtlasData o ins).
Qed.

(** ** The engine calls of an execution *)

Lemma sched_noEngine (evs : list Event) :
  forallb isSched evs = true -> filter isEngineCall evs = [].
Proof.
  induction evs as [|e evs IH]; [reflexivity|].
  cbn [forallb]. intros H. apply andb_true_iff in H. destruct H as [He H].
  destruct e; try discriminate He; cbn; auto.
Qed.

Lemma render_noEngine (time dt : number) (w : World) :
  exists evs, trace (render time dt w) = trace w ++ evs /\
              filter isEngineCall evs = [].
Proof.
  destruct (render_shape time dt w) as (evs1 & evs2 & E & F1 & F2 & _).
  eexists. split; [exact E|].
  cbn [filter isEngineCall]. rewrite !filter_app. cbn [filter isEngineCall].
  rewrite (sched_noEngine _ F1), (sched_noEngine _ F2).
  unfold resizeEvents. now destruct (canvasSizeDirty (this w)).
Qed.

Lemma render_random (time dt : number) (w : World) :
  random (this (render time dt w)) = random (this w).
Proof.
  unfold render.
  set (w1 := if canvasSizeDirty (this (emit (EvRender time dt) w)) then _ else _).
  assert (E : random (this w1) = random (this w)).
  { subst w1. cbn. now destruct (canvasSizeDirty (this w)). }
  clearbody w1.
  destruct (runProgram _ _) as [p j].
  destruct (htmlSubs_notify _) as [p' k].
  rewrite (same_random _ _ (callbacks_sameOutside k _)). cbn.
  rewrite (same_random _ _ (callbacks_sameOutside j _)). exact E.
Qed.

Lemma loop_noEngine (time : number) (w : World) :
  (exists evs, trace (loop time w) = trace w ++ evs /\
               filter isEngineCall evs = []) /\
  random (this (loop time w)) = random (this w).
Proof.
  destruct (negb (isDirty (this w)) || stopped (this w)) eqn:B.
  - rewrite (loop_idle time w B). split; [|reflexivity].
    exists []. now rewrite app_nil_r.
  - apply orb_false_iff in B. destruct B as [B1 B2].
    apply negb_false_iff in B1.
    rewrite (loop_dirty time w B1 B2). cbn zeta.
    set (w0 := on_this (set_prevTime time) (on_this (set_isDirty false) w)).
    destruct (render_noEngine time (frameDelta time w) w0) as (evs & E & F).
    split.
    + exists (evs ++ [EvRequestFrame
                        (N.succ (frameId (host (render time (frameDelta time w) w0))))]).
      cbn. rewrite E. cbn. rewrite <- app_assoc. split; [reflexivity|].
      rewrite filter_app, F. reflexivity.
    + cbn. now rewrite render_random.
Qed.

Lemma setData_model (data : ICanvasData) (w : World) :
  let rs := renderState (this w) in
  (gptGpuModel (progState (this (setData data w))), random (this (setData data w))) =
    match dataAndModel data, gptGpuModel (progState (this w)) with
    | Some dm, None =>
        let (m, r) := setModelInputData rs (initModel rs dm 1) (random (this w)) in
        (Some (runModel rs m), r)
    | _, _ => (gptGpuModel (progState (this w)), random (this w))
    end.
Proof.
  unfold setData.
  rewrite markDirty_progState, (same_random _ _ (markDirty_sameOutside _)).
  destruct (dataAndModel data) as [dm|];
    [destruct (gptGpuModel (progState (this w))) as [m|] eqn:G|];
    cbn; rewrite ?G; cbn; try reflexivity.
  - now rewrite G.
  - unfold renderState. cbn.
    destruct (setModelInputData _ _ _) as [m r]. reflexivity.
Qed.

Lemma markDirty_random (w : World) :
  random (this (markDirty w)) = random (this w).
Proof. apply (same_random _ _ (markDirty_sameOutside w)). Qed.

Lemma step_engine (i : Input) (w : World) :
  (exists evs,
     trace (step i w) = trace w ++ evs /\
     filter isEngineCall evs =
       match i with InSetData data => engineCalls data w | _ => [] end) /\
  match i with
  | InSetData _ => True
  | _ => random (this (step i w)) = random (this w)
  end.
Proof.
  assert (Nil : exists evs : list Event,
            trace w = trace w ++ evs /\ filter isEngineCall evs = [])
    by (exists []; now rewrite app_nil_r).
  assert (MD : forall x, trace x = trace w ->
            exists evs, trace (markDirty x) = trace w ++ evs /\
                        filter isEngineCall evs = []).
  { intros x Ex. destruct (markDirty_trace x) as (evs & E & F).
    exists evs. rewrite E, Ex. split; [reflexivity|now apply sched_noEngine]. }
  destruct i; cbn [step]; try (split; [exact Nil|reflexivity]).
  - split; [|exact I].
    destruct (setData_shape data w)
      as (w1 & -> & _ & _ & _ & _ & _ & _ & _ & _ & Et).
    destruct (markDirty_trace w1) as (evs & E & F).
    exists (engineCalls data w ++ evs). rewrite E, Et, <- app_assoc.
    split; [reflexivity|].
    rewrite filter_app, (sched_noEngine _ F), app_nil_r.
    unfold engineCalls. destruct (dataAndModel data); [|reflexivity].
    now destruct (gptGpuModel (progState (this w))).
  - destruct (keyCommand_cases key w) as [[_ ->]|[[_ ->]|[[_ ->]|[_ ->]]]].
    + split.
      * destruct (MD (on_walkthrough toggled w) eq_refl) as (evs & E & F).
        exists (evs ++ [EvPreventDefault]). cbn. rewrite E, <- app_assoc.
        split; [reflexivity|]. now rewrite filter_app, F.
      * cbn. now rewrite markDirty_random.
    + split; [now apply MD|now rewrite markDirty_random].
    + split; [now apply MD|now rewrite markDirty_random].
    + split; [exact Nil|reflexivity].
  - unfold resizeObserved.
    split; [now apply MD|now rewrite markDirty_random].
  - split; [now apply MD|now rewrite markDirty_random].
  - unfold fireFrame. destruct (frameQueue (host w)) as [|h q].
    + split; [exact Nil|reflexivity].
    + apply (loop_noEngine _ (on_host (set_frameQueue q) w)).
Qed.

Lemma engineCalls_bind (data : ICanvasData) (w : World) :
  exists binds, engineCalls data w = flat_map bindCalls binds.
Proof.
  unfold engineCalls. destruct (dataAndModel data) as [dm|].
  - destruct (gptGpuModel (progState (this w))).
    + now exists [].
    + exists [(renderState (this w), dm, random (this w))]. reflexivity.
  - now exists [].
Qed.

Lemma reachable_engine (fontAtlasData : IFontAtlasData) (o : Host)
    (ins : list Input) :
  exists binds,
    filter isEngineCall (trace (run ins (session fontAtlasData o))) =
      flat_map bindCalls binds.
Proof.
  apply (run_invariant
           (fun w => exists binds,
                filter isEngineCall (trace w) = flat_map bindCalls binds)).
  - intros i w (binds & E).
    destruct (step_engine i w) as ((evs & Et & F) & _).
    rewrite Et, filter_app, E, F.
    destruct i; try (exists binds; now rewrite app_nil_r).
    destruct (engineCalls_bind data w) as (b & ->).
    exists (binds ++ b). now rewrite flat_map_app.
  - now exists [].
Qed.

(** C8. A [setData] call that binds a model calls [initModel], then
    [setModelInputData] on the handle it returned, then [runModel] on that
    handle, in that order and within the call; any other [setData] call makes
    no engine call.  Over a whole execution the engine calls are a sequence
    of such triples: [runModel] is never called on a handle before
    [setModelInputData] has returned for it. *)
Theorem engine_call_order
    (fontAtlasData : IFontAtlasData) (o : Host) (ins : list Input)
    (data : ICanvasData) :
  let w := run ins (session fontAtlasData o) in
  let rs := renderState (this w) in
  (exists evs,
     trace (setData data w) =
       trace w ++
       match dataAndModel data, gptGpuModel (progState (this w)) with
       | Some dm, None =>
           [EvInitModel dm 1;
            EvSetModelInputData (initModel rs dm 1) (random (this w));
            EvRunModel (fst (setModelInputData rs (initModel rs dm 1) (random (this w))))]
       | _, _ => []
       end ++ evs /\
     filter isEngineCall evs = []) /\
  (exists binds, filter isEngineCall (trace w) = flat_map bindCalls binds).
Proof.
  intros w rs. split; [|apply reachable_engine].
  destruct (setData_shape data w) as (w1 & -> & _ & _ & _ & _ & _ & _ & _ & _ & Et).
  destruct (markDirty_trace w1) as (evs & E & F).
  exists evs. rewrite E, Et, <- app_assoc.
  split; [reflexivity|now apply sched_noEngine].
Qed.

(** ** The generator of a session *)

Lemma step_generatorFresh (i : Input) (w : World) :
  generatorFresh w -> generatorFresh (step i w).
Proof.
  intros K H.
  destruct (step_engine i w) as ((evs & Et & F) & R).
  rewrite Et, filter_app in H. apply app_eq_nil in H. destruct H as [H1 H2].
  rewrite <- (K H1).
  destruct i; try exact R.
  rewrite F in H2.
  pose proof (setData_model data w) as M. cbn zeta in M.
  unfold engineCalls in H2. cbn [step].
  destruct (dataAndModel data) as [dm|].
  - destruct (gptGpuModel (progState (this w))); [|discriminate H2].
    now injection M.
  - now injection M.
Qed.

Lemma reachable_generatorFresh (fontAtlasData : IFontAtlasData) (o : Host)
    (ins : list Input) :
  generatorFresh (run ins (session fontAtlasData o)).
Proof.
  apply run_invariant; [exact step_generatorFresh|].
  intros _. reflexivity.
Qed.

(** C9. The session always builds its generator with the seed 4.  Take two
    runs of a session, with any canvases, font atlases, hosts, and any two
    histories of inputs and timings before a model is bound: in both, the
    generator handed to [setModelInputData] is still the freshly seeded one,
    so it yields the same output sequence; and binding the same data under
    the same render context produces the same model state, the one
    [initModel], [setModelInputData] and [runModel] compute from the data and
    the generator seeded with 4. *)
Theorem seeded_determinism
    (font1 font2 : IFontAtlasData) (o1 o2 : Host) (ins1 ins2 : list Input)
    (dm : IDataAndModel) (n : nat) :
  let w1 := run ins1 (session font1 o1) in
  let w2 := run ins2 (session font2 o2) in
  let bound w := progState (this (setData {| dataAndModel := Some dm |} w)) in
  let rs := renderState (this w1) in
  filter isEngineCall (trace w1) = [] ->
  filter isEngineCall (trace w2) = [] ->
  gptGpuModel (progState (this w1)) = None ->
  gptGpuModel (progState (this w2)) = None ->
  renderState (this w1) = renderState (this w2) ->
  random (this (session font1 o1)) = Random_new 4 /\
  random (this w1) = Random_new 4 /\
  random (this w2) = Random_new 4 /\
  Random_outputs (random (this w1)) n = Random_outputs (random (this w2)) n /\
  gptGpuModel (bound w1) =
    Some (runModel rs (fst (setModelInputData rs (initModel rs dm 1) (Random_new 4)))) /\
  gptGpuModel (bound w1) = gptGpuModel (bound w2).
Proof.
  intros w1 w2 bound rs E1 E2 G1 G2 R.
  pose proof (reachable_generatorFresh font1 o1 ins1 E1) as F1.
  pose proof (reachable_generatorFresh font2 o2 ins2 E2) as F2.
  fold w1 in F1. fold w2 in F2.
  assert (B : forall w, gptGpuModel (progState (this w)) = None ->
            random (this w) = Random_new 4 ->
            gptGpuModel (bound w) =
              Some (runModel (renderState (this w))
                      (fst (setModelInputData (renderState (this w))
                              (initModel (renderState (this w)) dm 1)
                              (Random_new 4))))).
  { intros w G F. subst bound. cbn beta.
    pose proof (setData_model {| dataAndModel := Some dm |} w) as M.
    cbn zeta in M. cbn [dataAndModel] in M. rewrite G, F in M.
    destruct (setModelInputData _ _ _) as [m r]. now injection M. }
  repeat split; auto.
  - now rewrite F1, F2.
  - rewrite (B w1 G1 F1), (B w2 G2 F2). now rewrite R.
Qed.

End Properties.

(** * Further properties of the scheduler *)

Section SchedulerExtras.

Context {T : ProjectTypes} {P : Project T}.

Local Open Scope float_scope.

Lemma stopped_inert (w : World) : stopped (this w) = true -> live w = false.
Proof. intros S. unfold live. rewrite S. now rewrite orb_true_r. Qed.

Lemma engineCalls_silent (data : ICanvasData) (w : World) :
  requests (engineCalls data w) = 0%nat /\
  renders (engineCalls data w) = [] /\
  resizes (engineCalls data w) = [] /\
  prevented (engineCalls data w) = 0%nat.
Proof.
  unfold engineCalls. destruct (dataAndModel data); [|now repeat split].
  destruct (gptGpuModel (progState (this w))); now repeat split.
Qed.

Lemma prevented_app (t u : list Event) :
  prevented (t ++ u) = (prevented t + prevented u)%nat.
Proof. unfold prevented. now rewrite filter_app, length_app. Qed.

Lemma sched_prevented (evs : list Event) :
  forallb isSched evs = true -> prevented evs = 0%nat.
Proof.
  induction evs as [|e evs IH]; [reflexivity|].
  cbn [forallb]. intros H. apply andb_true_iff in H. destruct H as [He H].
  destruct e; try discriminate He; cbn; auto.
Qed.

(** ** After [destroy], for good *)

Lemma step_after_destroy (i : Input) (w : World) :
  stopped (this w) = true ->
  requests (trace (step i w)) = requests (trace w) /\
  renders (trace (step i w)) = renders (trace w) /\
  resizes (trace (step i w)) = resizes (trace w) /\
  (List.length (frameQueue (host (step i w))) <= List.length (frameQueue (host w)))%nat.
Proof.
  intros S. pose proof (stopped_inert w S) as L.
  assert (Same : requests (trace w) = requests (trace w) /\
                 renders (trace w) = renders (trace w) /\
                 resizes (trace w) = resizes (trace w) /\
                 (List.length (frameQueue (host w)) <= List.length (frameQueue (host w)))%nat)
    by (repeat split; lia).
  destruct i; cbn [step]; try exact Same.
  - destruct (setData_shape data w)
      as (w1 & -> & Eh & _ & Es & _ & _ & _ & _ & _ & Et).
    rewrite markDirty_inert by (apply stopped_inert; congruence).
    destruct (engineCalls_silent data w) as (Q1 & Q2 & Q3 & _).
    rewrite Et, Eh, requests_app, renders_app, resizes_app, Q1, Q2, Q3.
    rewrite !app_nil_r. repeat split; lia.
  - destruct (keyCommand_cases key w) as [[_ ->]|[[_ ->]|[[_ ->]|[_ ->]]]];
      try exact Same;
      rewrite markDirty_inert by exact L; try exact Same.
    cbn [trace host emit on_walkthrough on_progState on_this].
    rewrite requests_app, renders_app, resizes_app. cbn.
    rewrite !app_nil_r. repeat split; lia.
  - unfold resizeObserved. rewrite markDirty_inert by exact L. exact Same.
  - rewrite markDirty_inert by exact L. exact Same.
  - unfold fireFrame. destruct (frameQueue (host w)) as [|h q] eqn:Q.
    + rewrite Q. repeat split; lia.
    + rewrite loop_idle by (cbn; rewrite S; apply orb_true_r).
      cbn. repeat split; lia.
Qed.

Lemma run_after_destroy (ins : list Input) (w : World) :
  stopped (this w) = true ->
  requests (trace (run ins w)) = requests (trace w) /\
  renders (trace (run ins w)) = renders (trace w) /\
  resizes (trace (run ins w)) = resizes (trace w) /\
  (List.length (frameQueue (host (run ins w))) <= List.length (frameQueue (host w)))%nat.
Proof.
  revert w. induction ins as [|i ins IH]; intros w S; [repeat split; cbn; lia|].
  rewrite run_cons.
  destruct (step_after_destroy i w S) as (E1 & E2 & E3 & E4).
  destruct (IH (step i w) (step_stopped i w S)) as (F1 & F2 & F3 & F4).
  repeat split; try congruence. lia.
Qed.

(** X1. Teardown is final: whatever happens to a scheduler after
    [destroy] (more [setData] calls, key presses, resize notifications,
    queued frames firing), it never requests a frame callback, never starts a
    render pass and never resizes the backing surface again; the frame queue
    can only drain. *)
Theorem teardown_is_final (w : World) (ins : list Input) :
  let w' := run ins (destroy w) in
  requests (trace w') = requests (trace w) /\
  renders (trace w') = renders (trace w) /\
  resizes (trace w') = resizes (trace w) /\
  (List.length (frameQueue (host w')) <= List.length (frameQueue (host w)))%nat.
Proof.
  exact (run_after_destroy ins (destroy w) eq_refl).
Qed.

(** ** A model is bound once *)

Lemma setData_canvasData (data : ICanvasData) (w : World) :
  canvasData (this (setData data w)) = Some data.
Proof.
  destruct (setData_shape data w) as (w1 & -> & _ & Ec & _).
  now rewrite (same_canvasData _ _ (markDirty_sameOutside w1)).
Qed.

Lemma setData_bound (data : ICanvasData) (w : World) (m : IGpuGptModel) :
  gptGpuModel (progState (this w)) = Some m ->
  gptGpuModel (progState (this (setData data w))) = Some m /\
  random (this (setData data w)) = random (this w) /\
  filter isEngineCall (trace (setData data w)) = filter isEngineCall (trace w).
Proof.
  intros G.
  pose proof (setData_model data w) as M. cbn zeta in M. rewrite G in M.
  destruct (step_engine (InSetData data) w) as ((evs & Et & F) & _).
  cbn [step] in Et. unfold engineCalls in F. rewrite G in F.
  assert (F' : filter isEngineCall evs = []) by (destruct (dataAndModel data); exact F).
  assert (M' : (gptGpuModel (progState (this (setData data w))),
                random (this (setData data w))) = (Some m, random (this w)))
    by (destruct (dataAndModel data); exact M).
  injection M' as M1 M2.
  rewrite Et, filter_app, F', app_nil_r. now repeat split.
Qed.

(** X2. Once a model is bound, [setData] never calls the engine again:
    however many further [setData] calls arrive and whatever data they
    carry, the bound model and the generator stay as they are and no
    [initModel], [setModelInputData] or [runModel] call is made; only
    [canvasData] follows the latest call. *)
Theorem model_bound_once
    (w : World) (m : IGpuGptModel) (datas : list ICanvasData) (data : ICanvasData) :
  gptGpuModel (progState (this w)) = Some m ->
  let w' := run (map InSetData (datas ++ [data])) w in
  gptGpuModel (progState (this w')) = Some m /\
  random (this w') = random (this w) /\
  filter isEngineCall (trace w') = filter isEngineCall (trace w) /\
  canvasData (this w') = Some data.
Proof.
  intros G w'. subst w'. rewrite map_app, run_app. cbn [map run fold_left step].
  assert (K : gptGpuModel (progState (this (run (map InSetData datas) w))) = Some m /\
              random (this (run (map InSetData datas) w)) = random (this w) /\
              filter isEngineCall (trace (run (map InSetData datas) w)) =
                filter isEngineCall (trace w)).
  { revert w G. induction datas as [|d datas IH]; intros w G; [now repeat split|].
    cbn [map]. rewrite run_cons. cbn [step].
    destruct (setData_bound d w m G) as (G1 & R1 & F1).
    destruct (IH (setData d w) G1) as (G2 & R2 & F2).
    repeat split; congruence. }
  destruct K as (G1 & R1 & F1).
  destruct (setData_bound data _ m G1) as (G2 & R2 & F2).
  repeat split; try congruence. apply setData_canvasData.
Qed.

(** ** The baseline of the delta time *)

Lemma pendingOK_idle (w : World) :
  pendingOK w -> frameQueue (host w) = [] -> rafHandle (this w) = 0%N.
Proof.
  unfold pendingOK. intros H Q. rewrite Q in H.
  destruct (rafHandle (this w) =? 0)%N eqn:E; [now apply N.eqb_eq|discriminate H].
Qed.

Lemma pendingOK_busy (w : World) :
  pendingOK w -> frameQueue (host w) <> [] -> rafHandle (this w) <> 0%N.
Proof.
  unfold pendingOK. intros H Q E. rewrite E in H. cbn in H. contradiction.
Qed.

Lemma fireFrame_renders (time : number) (w : World) :
  pendingOK w -> frameQueue (host w) <> [] ->
  isDirty (this w) = true -> stopped (this w) = false ->
  renders (trace (fireFrame time w)) = renders (trace w) ++ [(time, frameDelta time w)] /\
  frameQueue (host (fireFrame time w)) = [N.succ (frameId (host w))] /\
  rafHandle (this (fireFrame time w)) = N.succ (frameId (host w)) /\
  prevTime (this (fireFrame time w)) = time.
Proof.
  intros H Q D S.
  destruct (fireFrame_reachable w time H Q)
    as (w1 & -> & I & Et & Etr & _ & _ & _ & Ef).
  assert (D1 : isDirty (this w1) = true) by now rewrite Et.
  assert (S1 : stopped (this w1) = false) by now rewrite Et.
  destruct (loop_dirty_inCallback time w1 I D1 S1)
    as (Eq & Er & _ & Ep & _ & j & k & Etrace).
  rewrite <- Ef. repeat split; auto.
  rewrite Etrace, Etr. rewrite renders_app. cbn [renders].
  rewrite !renders_app, renders_resizeEvents. cbn.
  rewrite !renders_app, !renders_markDirty. cbn.
  unfold frameDelta. now rewrite Et.
Qed.

(** X3. The delta time of the first frame after an idle period is measured
    from the [markDirty] call that woke the scheduler, not from the last
    frame: with no frame pending, [markDirty] takes the clock as the new
    [prevTime], and the frame that then fires at [time] (however the clock
    moved in between) renders with [time - clock], floored as usual.  With a
    frame pending, [markDirty] leaves [prevTime] alone. *)
Theorem delta_time_baseline
    (fontAtlasData : IFontAtlasData) (o : Host) (ins : list Input)
    (later time : number) :
  let w := run ins (session fontAtlasData o) in
  let woken := clock (host w) in
  live w = true ->
  (frameQueue (host w) = [] ->
   prevTime (this (markDirty w)) = woken /\
   renders (trace (run [InMarkDirty; InClock later; InFrame time] w)) =
     renders (trace w) ++
     [(time, if time - woken <? 8 then 16 else time - woken)]) /\
  (frameQueue (host w) <> [] ->
   prevTime (this (markDirty w)) = prevTime (this w)).
Proof.
  intros w woken L.
  assert (K : pendingOK w) by apply reachable_pendingOK.
  split; intros Q.
  - pose proof (pendingOK_idle w K Q) as E.
    assert (Ep : prevTime (this (markDirty w)) = woken)
      by now rewrite (markDirty_idle w L E).
    split; [exact Ep|].
    cbn [run fold_left step].
    set (w2 := on_host (set_clock later) (markDirty w)).
    assert (K2 : pendingOK w2) by (apply (markDirty_pendingOK w K)).
    assert (Q2 : frameQueue (host w2) <> []).
    { pose proof (rafHandle_markDirty w L) as Hh.
      pose proof (markDirty_pendingOK w K) as K1. unfold pendingOK in K1.
      subst w2. cbn. rewrite K1. apply N.eqb_neq in Hh. now rewrite Hh. }
    destruct (fireFrame_renders time w2 K2 Q2) as (R & _).
    + subst w2. cbn. now apply isDirty_markDirty.
    + subst w2. cbn. rewrite (same_stopped _ _ (markDirty_sameOutside w)).
      unfold live in L. apply negb_true_iff, orb_false_iff in L. apply L.
    + rewrite R. unfold frameDelta. subst w2. cbn [this on_host trace].
      rewrite Ep.
      destruct (markDirty_trace w) as (evs & -> & F).
      now rewrite renders_app, (sched_renders _ F), app_nil_r.
  - pose proof (pendingOK_busy w K Q) as E.
    now rewrite (markDirty_pending w L E).
Qed.

(** ** A dirty frame re-arms, an idle one stops *)

(** X4. A dirty frame callback always leaves exactly one frame callback
    pending, whether or not anything called [markDirty] during the render
    pass; if nothing did, that next callback renders nothing, requests
    nothing and leaves the queue empty.  So one [markDirty] costs two frame
    callbacks: the render pass and one idle frame. *)
Theorem dirty_frame_rearms
    (fontAtlasData : IFontAtlasData) (o : Host) (ins : list Input)
    (time time' : number) :
  let w := run ins (session fontAtlasData o) in
  let w1 := fireFrame time w in
  let w2 := fireFrame time' w1 in
  frameQueue (host w) <> [] ->
  isDirty (this w) = true -> stopped (this w) = false ->
  frameQueue (host w1) = [N.succ (frameId (host w))] /\
  rafHandle (this w1) = N.succ (frameId (host w)) /\
  List.length (renders (trace w1)) = S (List.length (renders (trace w))) /\
  (isDirty (this w1) = false ->
   frameQueue (host w2) = [] /\ rafHandle (this w2) = 0%N /\ trace w2 = trace w1).
Proof.
  intros w w1 w2 Q D S.
  assert (K : pendingOK w) by apply reachable_pendingOK.
  destruct (fireFrame_renders time w K Q D S) as (R & Eq & Er & _).
  fold w1 in R, Eq, Er.
  split; [exact Eq|]. split; [exact Er|]. split.
  - rewrite R, length_app. cbn. lia.
  - intros D1. subst w2. unfold fireFrame. rewrite Eq.
    rewrite loop_idle by (cbn; now rewrite D1).
    cbn. repeat split.
Qed.

(** ** Commands and notifications schedule a redraw *)

Lemma markDirty_schedules (w : World) :
  pendingOK w -> live w = true ->
  isDirty (this (markDirty w)) = true /\
  List.length (frameQueue (host (markDirty w))) = 1%nat.
Proof.
  intros K L. split; [now apply isDirty_markDirty|].
  pose proof (rafHandle_markDirty w L) as Hh.
  pose proof (markDirty_pendingOK w K) as K1. unfold pendingOK in K1.
  rewrite K1. apply N.eqb_neq in Hh. now rewrite Hh.
Qed.

(** X5. On a scheduler that has data and is not stopped, each walkthrough
    command and each resize notification raises the dirty flag and leaves
    exactly one frame callback pending, whatever was pending before. *)
Theorem commands_schedule_redraw
    (fontAtlasData : IFontAtlasData) (o : Host) (ins : list Input) :
  let w := run ins (session fontAtlasData o) in
  live w = true ->
  (forall c,
     isDirty (this (command c w)) = true /\
     List.length (frameQueue (host (command c w))) = 1%nat) /\
  isDirty (this (resizeObserved w)) = true /\
  List.length (frameQueue (host (resizeObserved w))) = 1%nat.
Proof.
  intros w L.
  assert (K : pendingOK w) by apply reachable_pendingOK.
  split.
  - intros c. unfold command.
    destruct (keyCommand_cases (keyOf c) w) as [[_ ->]|[[_ ->]|[[_ ->]|[N _]]]];
      try (apply markDirty_schedules; [exact K|exact L]).
    now destruct (N c).
  - apply (markDirty_schedules (on_this (set_canvasSizeDirty true) w)); [exact K|exact L].
Qed.

(** X6. A key other than space, Backspace, Delete, f and F is ignored: the
    handler returns the world it was given (no walkthrough change, no
    [markDirty], no [preventDefault]).  [ev.preventDefault()] is called for
    the space key, once, and for no other key. *)
Theorem other_keys_ignored (key : string) (w : World) :
  (~ In key boundKeys -> handleKeyDown key (Some w) = Some w) /\
  prevented (trace (keyCommand key w)) =
    (prevented (trace w) + if String.eqb key " " then 1 else 0)%nat.
Proof.
  assert (MD : forall x, trace x = trace w ->
               prevented (trace (markDirty x)) = prevented (trace w)).
  { intros x Ex. destruct (markDirty_trace x) as (evs & -> & F).
    rewrite prevented_app, (sched_prevented _ F), Ex. lia. }
  split.
  - intros N. cbn [handleKeyDown]. f_equal.
    destruct (keyCommand_cases key w) as [[K _]|[[K _]|[[K _]|[_ E]]]];
      [exfalso; apply N; subst key; cbn; tauto
      |exfalso; apply N; destruct K; subst key; cbn; tauto
      |exfalso; apply N; destruct K; subst key; cbn; tauto
      |exact E].
  - destruct (keyCommand_cases key w) as [[K ->]|[[K ->]|[[K ->]|[K ->]]]].
    + subst key. cbn [trace emit]. rewrite prevented_app, MD by reflexivity.
      reflexivity.
    + rewrite MD by reflexivity. destruct K; subst key; cbn; lia.
    + rewrite MD by reflexivity. destruct K; subst key; cbn; lia.
    + destruct (String.eqb_spec key " ") as [->|_]; [|lia].
      now destruct (K Toggle).
Qed.

(** ** The backing surface is sized before anything is drawn *)

Lemma step_sizes_quiet (i : Input) (w : World) :
  notFrame i = true ->
  renders (trace (step i w)) = renders (trace w) /\
  resizes (trace (step i w)) = resizes (trace w) /\
  (canvasSizeDirty (this w) = true -> canvasSizeDirty (this (step i w)) = true).
Proof.
  intros N.
  assert (MD : forall x, renders (trace x) = renders (trace w) ->
               resizes (trace x) = resizes (trace w) ->
               (canvasSizeDirty (this w) = true -> canvasSizeDirty (this x) = true) ->
               renders (trace (markDirty x)) = renders (trace w) /\
               resizes (trace (markDirty x)) = resizes (trace w) /\
               (canvasSizeDirty (this w) = true ->
                canvasSizeDirty (this (markDirty x)) = true)).
  { intros x E1 E2 E3. destruct (markDirty_trace x) as (evs & -> & F).
    rewrite renders_app, resizes_app, (sched_renders _ F), (sched_resizes _ F).
    rewrite !app_nil_r, (same_canvasSizeDirty _ _ (markDirty_sameOutside x)).
    now repeat split. }
  destruct i; cbn [step]; try discriminate N; try (now repeat split).
  - destruct (setData_shape data w)
      as (w1 & -> & _ & _ & _ & Ed & _ & _ & _ & _ & Et).
    destruct (engineCalls_silent data w) as (_ & Q2 & Q3 & _).
    apply MD.
    + now rewrite Et, renders_app, Q2, app_nil_r.
    + now rewrite Et, resizes_app, Q3, app_nil_r.
    + now rewrite Ed.
  - destruct (keyCommand_cases key w) as [[_ ->]|[[_ ->]|[[_ ->]|[_ ->]]]];
      try (now repeat split); try (apply MD; now auto).
    destruct (MD (on_walkthrough toggled w)) as (E1 & E2 & E3); auto.
    cbn [trace this emit]. rewrite renders_app, resizes_app, E1, E2. cbn.
    rewrite !app_nil_r. now repeat split.
  - unfold resizeObserved. apply MD; auto.
  - apply MD; auto.
Qed.

Lemma render_renders (time dt : number) (w : World) :
  renders (trace (render time dt w)) = renders (trace w) ++ [(time, dt)].
Proof.
  destruct (render_shape time dt w) as (evs1 & evs2 & -> & F1 & F2 & _).
  rewrite renders_app. cbn [renders]. rewrite !renders_app. cbn [renders].
  now rewrite renders_resizeEvents, (sched_renders _ F1), (sched_renders _ F2).
Qed.

Lemma loop_sizes (time : number) (w : World) :
  isDirty (this w) = true -> stopped (this w) = false ->
  (exists dt, renders (trace (loop time w)) = renders (trace w) ++ [(time, dt)]) /\
  resizes (trace (loop time w)) = resizes (trace w) ++ resizes (resizeEvents w) /\
  canvasSizeDirty (this (loop time w)) = false.
Proof.
  intros D S. rewrite (loop_dirty time w D S). cbn zeta.
  set (w0 := on_this (set_prevTime time) (on_this (set_isDirty false) w)).
  destruct (render_shape time (frameDelta time w) w0) as (_ & _ & _ & _ & _ & Ed & _).
  cbn [trace this on_this snd requestAnimationFrame emit on_host].
  split; [|split].
  - exists (frameDelta time w).
    rewrite renders_app, render_renders. cbn. now rewrite app_nil_r.
  - rewrite resizes_app, render_resizes. cbn. now rewrite app_nil_r.
  - exact Ed.
Qed.

Lemma step_sizedBeforeDrawn (i : Input) (w : World) :
  sizedBeforeDrawn w -> sizedBeforeDrawn (step i w).
Proof.
  intros [Le First].
  destruct (notFrame i) eqn:N.
  - destruct (step_sizes_quiet i w N) as (E1 & E2 & E3).
    split; rewrite E1, E2; [exact Le|].
    intros Z. destruct (First Z) as [R C]. split; [exact R|now apply E3].
  - destruct i; try discriminate N. cbn [step]. unfold fireFrame.
    destruct (frameQueue (host w)) as [|h q]; [now split|].
    set (x := on_host (set_frameQueue q) w).
    destruct (negb (isDirty (this x)) || stopped (this x)) eqn:B.
    + rewrite (loop_idle _ x B). now split.
    + apply orb_false_iff in B. destruct B as [B1 B2].
      apply negb_false_iff in B1.
      destruct (loop_sizes time0 x B1 B2) as ((dt & R) & Z & C).
      change (trace x) with (trace w) in R, Z.
      assert (ZE : resizes (resizeEvents x) = resizes (resizeEvents w)) by reflexivity.
      rewrite ZE in Z. unfold sizedBeforeDrawn. rewrite R, Z, !length_app.
      unfold resizeEvents in *.
      destruct (canvasSizeDirty (this w)) eqn:Dw; cbn.
      * split; [lia|]. intros E. now apply app_eq_nil in E.
      * split; [lia|]. rewrite app_nil_r. intros E.
        destruct (First E) as [_ C']. congruence.
Qed.

Lemma reachable_sizedBeforeDrawn (fontAtlasData : IFontAtlasData) (o : Host)
    (ins : list Input) :
  sizedBeforeDrawn (run ins (session fontAtlasData o)).
Proof.
  apply run_invariant; [exact step_sizedBeforeDrawn|].
  split; cbn; [lia|now split].
Qed.


(** X8. In every execution the backing surface has been resized at most
    once per render pass: the number of resizes never exceeds the number of
    render passes. *)
Theorem resizes_bounded_by_renders
    (fontAtlasData : IFontAtlasData) (o : Host) (ins : list Input) :
  let t := trace (run ins (session fontAtlasData o)) in
  (List.length (resizes t) <= List.length (renders t))%nat.
Proof.
  intros t. apply (reachable_sizedBeforeDrawn fontAtlasData o ins).
Qed.

(** ** Starting the loop, and never losing a redraw *)

Lemma live_setData (data : ICanvasData) (w : World) :
  live (setData data w) = negb (stopped (this w)).
Proof.
  destruct (setData_shape data w) as (w1 & -> & _ & Ec & Es & _).
  rewrite live_markDirty. unfold live. now rewrite Ec, Es.
Qed.

(** X16. The first [setData] call starts the loop, with or without model
    data: after [setData] on a scheduler that has not been stopped, the
    scheduler accepts [markDirty], the dirty flag is up and exactly one
    frame callback is pending. *)
Theorem setData_starts_the_loop
    (fontAtlasData : IFontAtlasData) (o : Host) (ins : list Input)
    (data : ICanvasData) :
  let w := run ins (session fontAtlasData o) in
  stopped (this w) = false ->
  live (setData data w) = true /\
  isDirty (this (setData data w)) = true /\
  List.length (frameQueue (host (setData data w))) = 1%nat.
Proof.
  intros w S.
  assert (K : pendingOK w) by apply reachable_pendingOK.
  split; [now rewrite live_setData, S|].
  destruct (setData_shape data w) as (w1 & -> & Eh & Ec & Es & _ & _ & Er & _).
  apply markDirty_schedules.
  - apply (pendingOK_ext w); [now rewrite Eh|exact Er|exact K].
  - unfold live. now rewrite Ec, Es, S.
Qed.

Lemma markDirty_flagServed (w : World) :
  pendingOK w -> flagServed w -> flagServed (markDirty w).
Proof.
  intros K F. destruct (live w) eqn:L.
  - intros _ _ Q.
    destruct (markDirty_schedules w K L) as [_ Len].
    rewrite Q in Len. discriminate Len.
  - now rewrite (markDirty_inert w L).
Qed.

Lemma step_flagServed (i : Input) (w : World) :
  pendingOK w -> flagServed w -> flagServed (step i w).
Proof.
  intros K F. destruct i; cbn [step]; try exact F.
  - destruct (setData_shape data w)
      as (w1 & -> & Eh & _ & Es & _ & _ & Er & Ed & _).
    apply markDirty_flagServed.
    + apply (pendingOK_ext w); [now rewrite Eh|exact Er|exact K].
    + unfold flagServed. now rewrite Es, Ed, Eh.
  - destruct (keyCommand_cases key w) as [[_ ->]|[[_ ->]|[[_ ->]|[_ ->]]]];
      try exact F;
      try (apply markDirty_flagServed; [exact K|exact F]).
  - apply (markDirty_flagServed (on_this (set_canvasSizeDirty true) w) K F).
  - now apply markDirty_flagServed.
  - unfold fireFrame. destruct (frameQueue (host w)) as [|h q] eqn:Q; [exact F|].
    assert (Q' : frameQueue (host w) <> []) by (rewrite Q; discriminate).
    destruct (fireFrame_reachable w time0 K Q') as (x & E & I & Et & _).
    unfold fireFrame in E. rewrite Q in E. rewrite E.
    destruct (negb (isDirty (this x)) || stopped (this x)) eqn:B.
    + rewrite (loop_idle _ x B). intros S D. cbn in S, D.
      rewrite S, D in B. discriminate B.
    + apply orb_false_iff in B. destruct B as [B1 B2].
      apply negb_false_iff in B1.
      destruct (loop_dirty_inCallback time0 x I B1 B2) as (Eq & _).
      intros _ _. rewrite Eq. discriminate.
  - intros S. discriminate S.
Qed.

(** X17. No redraw is lost: in every execution, while the scheduler has not
    been stopped, a raised dirty flag always has a frame callback pending to
    serve it. *)
Theorem no_lost_redraw
    (fontAtlasData : IFontAtlasData) (o : Host) (ins : list Input) :
  let w := run ins (session fontAtlasData o) in
  stopped (this w) = false -> isDirty (this w) = true ->
  frameQueue (host w) <> [].
Proof.
  cbv zeta.
  apply (run_invariant (fun w => pendingOK w /\ flagServed w)).
  - intros i w [K F]. split; [now apply step_pendingOK|now apply step_flagServed].
  - split; [apply session_pendingOK|]. intros _ D. discriminate D.
Qed.

End SchedulerExtras.

(** * The local-storage helpers *)

Module LocalStorageFacts.

Import LocalStorage.

Section Facts.

Context {Value : Type} {J : Json Value}.

Lemma read_stored (key text : string) (s : Storage) :
  getItem key s = Some text -> text <> ""%string ->
  readFromLocalStorage key (Some s) =
    match JSON_parse text with
    | Some v => (Some v, [])
    | None => (None, [ConsoleError key text])
    end.
Proof.
  intros G N. unfold readFromLocalStorage. rewrite G.
  destruct (String.eqb_spec text ""); [contradiction|reflexivity].
Qed.

Lemma getItem_setItem (key text : string) (s : Storage) :
  getItem key (setItem key text s) = Some text.
Proof. unfold getItem, setItem. now rewrite String.eqb_refl. Qed.

(** X9. Write, then read: when a truthy value is written and its JSON text
    parses back to it, reading the key returns that value and logs nothing,
    whatever the key held before. *)
Theorem storage_round_trip (key text : string) (v : Value) (s : Storage) :
  truthy v = true ->
  JSON_stringify v = Some text -> roomFor key text s = true ->
  text <> ""%string -> JSON_parse text = Some v ->
  exists s',
    writeToLocalStorage key v (Some s) = Returned (Some s') /\
    readFromLocalStorage key (Some s') = (Some v, []).
Proof.
  intros Tv St Room Ne Pa. exists (setItem key text s). split.
  - unfold writeToLocalStorage. now rewrite Tv, St, Room.
  - rewrite (read_stored key text); [now rewrite Pa|apply getItem_setItem|exact Ne].
Qed.

(** X10. Writing a falsy value erases the entry: the call cannot throw, the
    key is removed, and reading it returns [undefined] without logging,
    whatever the key held before (a corrupt text included). *)
Theorem storage_erase (key : string) (v : Value) (s : Storage) :
  truthy v = false ->
  exists s',
    writeToLocalStorage key v (Some s) = Returned (Some s') /\
    getItem key s' = None /\
    readFromLocalStorage key (Some s') = (None, []).
Proof.
  intros Tv. exists (removeItem key s).
  assert (G : getItem key (removeItem key s) = None)
    by (unfold getItem, removeItem; now rewrite String.eqb_refl).
  repeat split.
  - unfold writeToLocalStorage. now rewrite Tv.
  - exact G.
  - unfold readFromLocalStorage. now rewrite G.
Qed.

(** X11. A write to one key never changes what another key reads as. *)
Theorem storage_keys_independent
    (key other : string) (v : Value) (s s' : Storage) :
  other <> key ->
  writeToLocalStorage key v (Some s) = Returned (Some s') ->
  readFromLocalStorage other (Some s') = readFromLocalStorage other (Some s).
Proof.
  intros N W.
  assert (G : getItem other s' = getItem other s).
  { apply String.eqb_neq in N. unfold writeToLocalStorage in W.
    destruct (truthy v).
    - destruct (JSON_stringify v) as [text|]; [|discriminate W].
      destruct (roomFor key text s); [|discriminate W].
      injection W as <-. unfold getItem, setItem. now rewrite N.
    - injection W as <-. unfold getItem, removeItem. now rewrite N. }
  unfold readFromLocalStorage. now rewrite G.
Qed.


End Facts.

End LocalStorageFacts.

(** * The screen layout *)

Module ScreenLayoutFacts.

Import ScreenLayout.

Lemma useScreenLayout_last (windows : list Window) (win : Window) :
  useScreenLayout (windows ++ [win]) = handleResize win.
Proof. unfold useScreenLayout. now rewrite fold_left_app. Qed.

(** X13. Whatever resize and media-query events the hook has seen, the
    layout is either desktop or phone, never both and never neither; and the
    view holds the sidebar exactly once when there is a [CanvasRender] (before
    the canvas on desktop, after it on a phone) and not at all when there is
    none. *)
Theorem one_sidebar (windows : list Window) (canvasRender : bool) :
  let layout := useScreenLayout windows in
  isDesktop layout = negb (isPhone layout) /\
  List.length (filter isSidebar (LayerView_children layout canvasRender)) =
    (if canvasRender then 1 else 0)%nat /\
  LayerView_children layout true =
    (if isPhone layout then [CanvasWrap true; Sidebar]
     else [Sidebar; CanvasWrap true]).
Proof.
  intros layout.
  assert (C : isDesktop layout = negb (isPhone layout)).
  { subst layout. destruct windows as [|w ws] using rev_ind; [reflexivity|].
    rewrite useScreenLayout_last. reflexivity. }
  split; [exact C|]. unfold LayerView_children. rewrite C.
  destruct (isPhone layout), canvasRender; repeat split.
Qed.

End ScreenLayoutFacts.

(** * Loading tensor data *)

Module TensorDataFacts.

Import LocalStorage TensorData.

Section Facts.

Context {L : TensorLib}.

Lemma loadEntry_cases (v : JSON) (e : Entry) :
  loadEntry v = Returned e ->
  (hasShape v = false /\ e = Plain v) \/
  (hasShape v = true /\ exists t, TensorF32_fromJson v = Some t /\ e = Tensor t).
Proof.
  unfold loadEntry, hasShape.
  destruct (shapeOf v) as [[s|]|]; try discriminate.
  - destruct (truthyJSON s).
    + destruct (TensorF32_fromJson v) as [t|]; [|discriminate].
      intros [= <-]. right. split; [reflexivity|now exists t].
    + intros [= <-]. now left.
  - intros [= <-]. now left.
Qed.

Lemma loadFields_members (fields : list (string * JSON)) (out : list (string * Entry)) :
  loadFields fields = Returned out ->
  Forall2 (fun f o => fst o = fst f /\ loadEntry (snd f) = Returned (snd o)) fields out.
Proof.
  revert out. induction fields as [|[k v] rest IH]; intros out.
  - intros [= <-]. constructor.
  - cbn [loadFields]. destruct (loadEntry v) as [e|] eqn:E; [|discriminate].
    destruct (loadFields rest) as [out'|]; [|discriminate].
    intros [= <-]. constructor; [now split|now apply IH].
Qed.

(** X14. A load that succeeds keeps the members of the object: the same
    keys in the same order; a member without a truthy [shape] is handed back
    as it was parsed; and every tensor in the result is
    [TensorF32.fromJson] of the member of that key, which had a truthy
    [shape]. *)
Theorem load_keeps_members
    (fields : list (string * JSON)) (out : list (string * Entry)) :
  fetchTensorData (JObject fields) = Returned (SetObject out) ->
  map fst out = map fst fields /\
  (forall k v, In (k, v) fields -> hasShape v = false -> In (k, Plain v) out) /\
  (forall k t, In (k, Tensor t) out ->
     exists v, In (k, v) fields /\ hasShape v = true /\
               TensorF32_fromJson v = Some t).
Proof.
  cbn [fetchTensorData].
  destruct (loadFields fields) as [out'|] eqn:E; [|discriminate].
  intros [= <-]. apply loadFields_members in E.
  induction E as [|[k v] [k' e] fields out' [Hk He] _ IH]; [now repeat split|].
  cbn [fst snd] in Hk, He. subst k'.
  destruct IH as (I1 & I2 & I3).
  destruct (loadEntry_cases v e He) as [[Hs ->]|(Hs & t & Ht & ->)].
  - split; [cbn; now rewrite I1|]. split.
    + intros k0 v0 [[= <- <-]|Hin] H0; [now left|right; now apply I2].
    + intros k0 t0 [Hin|Hin]; [discriminate Hin|].
      destruct (I3 k0 t0 Hin) as (v0 & ? & ? & ?). exists v0. now repeat split; [right|..].
  - split; [cbn; now rewrite I1|]. split.
    + intros k0 v0 [[= <- <-]|Hin] H0; [congruence|right; now apply I2].
    + intros k0 t0 [[= <- <-]|Hin].
      * exists v. now repeat split; [left|..].
      * destruct (I3 k0 t0 Hin) as (v0 & ? & ? & ?). exists v0. now repeat split; [right|..].
Qed.

Lemma loadFields_null (k : string) (fields : list (string * JSON)) :
  In (k, JNull) fields -> loadFields fields = Thrown.
Proof.
  induction fields as [|[k' v] rest IH]; [contradiction|].
  intros [[= -> ->]|Hin]; cbn [loadFields]; [reflexivity|].
  destruct (loadEntry v); [|reflexivity]. now rewrite (IH Hin).
Qed.

Lemma loadItems_null (items : list JSON) :
  In JNull items -> loadItems items = Thrown.
Proof.
  induction items as [|v rest IH]; [contradiction|].
  intros [->|Hin]; cbn [loadItems]; [reflexivity|].
  destruct (loadEntry v); [|reflexivity]. now rewrite (IH Hin).
Qed.

(** X15. A [null] member makes the whole load throw, wherever it sits and
    whatever the other members are: [null.shape] is a [TypeError].  A
    response that is [null] itself, or not an object at all, is returned as
    it is. *)
Theorem null_member_throws (k : string) (fields : list (string * JSON))
    (items : list JSON) :
  (In (k, JNull) fields -> fetchTensorData (JObject fields) = Thrown) /\
  (In JNull items -> fetchTensorData (JArray items) = Thrown) /\
  fetchTensorData JNull = Returned (SetOther JNull) /\
  (forall s, fetchTensorData (JString s) = Returned (SetOther (JString s))).
Proof.
  repeat split.
  - intros H. cbn [fetchTensorData]. now rewrite (loadFields_null k fields H).
  - intros H. cbn [fetchTensorData]. now rewrite (loadItems_null items H).
Qed.

End Facts.

End TensorDataFacts.

(** * The properties on the demo project *)

Module Scenarios.

Import Demo.

Local Open Scope float_scope.

#[local] Existing Instance types.
#[local] Existing Instance project.

(** C1 at work: data is bound, then [markDirty] is called three times. *)
Lemma three_markDirty_one_frame :
  let w := run [InSetData data0] (session font0 host0) in
  live w = true /\
  List.length (frameQueue (host (run (repeat InMarkDirty 3) w))) = 1%nat.
Proof.
  cbv zeta. split; [vm_compute; reflexivity|].
  apply (proj2 (proj2 (proj2
    (@markDirty_schedules_one_frame types project font0 host0 [InSetData data0] 2)))).
  vm_compute; reflexivity.
Defined.

(** C2 at work: the frame fires 3ms after [markDirty] took its baseline. *)
Lemma three_ms_give_sixteen :
  let w := run [InSetData data0] (session font0 host0) in
  (1003 - prevTime (this w) <? 8) = true /\
  exists dt,
    renders (trace (fireFrame 1003 w)) = renders (trace w) ++ [(1003, dt)] /\
    dt = 16 /\
    prevTime (this (fireFrame 1003 w)) = 1003.
Proof.
  cbv zeta. split; [vm_compute; reflexivity|].
  destruct (@delta_time_floor types project font0 host0 [InSetData data0] 1003)
    as (dt & R & _ & Low & _ & _ & Pt).
  - vm_compute; discriminate.
  - vm_compute; reflexivity.
  - vm_compute; reflexivity.
  - exists dt. split; [exact R|]. split; [|exact Pt].
    apply Low. vm_compute; reflexivity.
Defined.

(** C4: the scheduler is destroyed while its first frame is queued; when the
    frame fires, [rafHandle] goes from 1 to 0. *)
Lemma destroyed_frame_clears_handle :
  this (fireFrame 1016 (destroy bound)) <> this (destroy bound).
Proof.
  intros H. apply (f_equal rafHandle) in H. vm_compute in H. discriminate H.
Qed.

(** C5: toggling twice is not toggling once. *)
Lemma toggle_twice_is_not_toggle :
  walkthroughOf (command Toggle (command Toggle bound))
    <> walkthroughOf (command Toggle bound).
Proof.
  intros H. apply (f_equal running) in H. vm_compute in H. discriminate H.
Qed.

(** C6 at work: three notifications, the last for a 800x600 box at ratio 2. *)
Lemma three_notifications_one_resize :
  let w1 := run (flat_map resizeTo ([box 100 100; box 320 200] ++ [box 800 600])) bound in
  pendingOK bound /\ live w1 = true /\
  resizes (trace (fireFrame 1016 w1)) =
    resizes (trace w1) ++
    [(rect_width (box 800 600) * devicePixelRatio (host bound),
      rect_height (box 800 600) * devicePixelRatio (host bound))].
Proof.
  cbv zeta.
  assert (K : pendingOK bound) by (vm_compute; reflexivity).
  split; [exact K|]. split; [vm_compute; reflexivity|].
  apply (proj2 (proj2 (proj2 (proj2 (proj2 (proj2 (proj2
    (@resize_coalescing types project bound
       [box 100 100; box 320 200] (box 800 600) 1016 16)))))))).
  - exact K.
  - vm_compute; reflexivity.
Defined.

(** C7 at work: after one render pass nothing is dirty; the queued frame
    fires and the loop stops. *)
Lemma idle_frame_stops_the_loop :
  let w := run [InSetData data0; InFrame 1016] (session font0 host0) in
  isDirty (this w) = false /\
  frameQueue (host (fireFrame 1033 w)) = [] /\
  requests (trace (fireFrame 1033 w)) = requests (trace w).
Proof.
  cbv zeta.
  assert (D : isDirty (this (run [InSetData data0; InFrame 1016]
                               (session font0 host0))) = false)
    by (vm_compute; reflexivity).
  split; [exact D|].
  destruct (proj1 (@no_idle_renewal types project font0 host0
                     [InSetData data0; InFrame 1016] 1033) (or_introl D))
    as (_ & R & _ & Q & _).
  split; [exact Q|exact R].
Defined.

(** C9 at work: two runs with different histories and timings. *)
Lemma two_runs_same_model :
  let w1 := run [InKeyDown " "; InClock 1234] (session font0 host0) in
  let w2 := run [InResize; InResize; InClock 99; InFrame 100] (session font0 host0) in
  let bound w := progState (this (setData {| dataAndModel := Some [1] |} w)) in
  renderState (this w1) = renderState (this w2) /\
  gptGpuModel (bound w1) = gptGpuModel (bound w2).
Proof.
  cbv zeta. split; [vm_compute; reflexivity|].
  apply (proj2 (proj2 (proj2 (proj2 (proj2
    (@seeded_determinism types project font0 font0 host0 host0
       [InKeyDown " "; InClock 1234] [InResize; InResize; InClock 99; InFrame 100]
       [1] 3
       ltac:(vm_compute; reflexivity) ltac:(vm_compute; reflexivity)
       ltac:(vm_compute; reflexivity) ltac:(vm_compute; reflexivity)
       ltac:(vm_compute; reflexivity))))))).
Defined.

(** C10 at work: commands and notifications before any [setData]. *)
Lemma nothing_scheduled_before_data :
  let ins := [InKeyDown " "; InResize; InMarkDirty; InFrame 5] in
  let w := run ins (session font0 host0) in
  forallb notSetData ins = true /\
  markDirty (session font0 host0) = session font0 host0 /\
  frameQueue (host w) = [] /\ requests (trace w) = 0%nat /\
  isDirty (this w) = false.
Proof.
  cbv zeta. split; [vm_compute; reflexivity|].
  destruct (@markDirty_needs_data types project font0 host0
              [InKeyDown " "; InResize; InMarkDirty; InFrame 5]
              (session font0 host0))
    as (Inert & _ & Before).
  split; [apply Inert; left; reflexivity|].
  destruct (Before ltac:(vm_compute; reflexivity)) as (_ & D & _ & _ & Q & R & _).
  split; [exact Q|]. split; [exact R|exact D].
Defined.

End Scenarios.

(** * The further properties on the demo project *)

Module MoreScenarios.

Import Demo.

Local Open Scope float_scope.

#[local] Existing Instance types.
#[local] Existing Instance project.

(** X2 at work: the model is bound, then two more [setData] calls arrive,
    one without data and one with other data. *)
Lemma rebinding_is_ignored :
  let more := [@Build_ICanvasData types None] ++ [@Build_ICanvasData types (Some [7])] in
  gptGpuModel (progState (this bound)) = Some [8; 2] /\
  gptGpuModel (progState (this (run (map InSetData more) bound))) = Some [8; 2].
Proof.
  cbv zeta.
  assert (G : gptGpuModel (progState (this bound)) = Some [8; 2])
    by (vm_compute; reflexivity).
  split; [exact G|].
  exact (proj1 (@model_bound_once types project bound [8; 2]
                  [@Build_ICanvasData types None]
                  (@Build_ICanvasData types (Some [7])) G)).
Defined.

(** X3 at work: the loop has stopped; [markDirty] is called at clock 4000
    and the frame fires at 4050. *)
Lemma baseline_after_idle :
  let w := run [InSetData data0; InFrame 1016; InFrame 1033; InClock 4000]
             (session font0 host0) in
  live w = true /\ frameQueue (host w) = [] /\
  renders (trace (run [InMarkDirty; InClock 4040; InFrame 4050] w)) =
    renders (trace w) ++
    [(4050, if 4050 - clock (host w) <? 8 then 16 else 4050 - clock (host w))].
Proof.
  cbv zeta.
  split; [vm_compute; reflexivity|]. split; [vm_compute; reflexivity|].
  apply (proj1 (@delta_time_baseline types project font0 host0
                  [InSetData data0; InFrame 1016; InFrame 1033; InClock 4000]
                  4040 4050 ltac:(vm_compute; reflexivity))).
  vm_compute; reflexivity.
Defined.

(** X4 at work: one [markDirty], two frame callbacks. *)
Lemma one_markDirty_two_frames :
  let w := run [InSetData data0] (session font0 host0) in
  frameQueue (host (fireFrame 1016 w)) = [N.succ (frameId (host w))] /\
  frameQueue (host (fireFrame 1033 (fireFrame 1016 w))) = [].
Proof.
  cbv zeta.
  destruct (@dirty_frame_rearms types project font0 host0 [InSetData data0]
              1016 1033
              ltac:(vm_compute; discriminate)
              ltac:(vm_compute; reflexivity)
              ltac:(vm_compute; reflexivity))
    as (Q1 & _ & _ & Idle).
  split; [exact Q1|].
  apply Idle. vm_compute; reflexivity.
Defined.

(** X5 at work: the loop has stopped; Reset wakes it. *)
Lemma reset_schedules_a_frame :
  let w := run [InSetData data0; InFrame 1016; InFrame 1033] (session font0 host0) in
  live w = true /\
  isDirty (this (command Reset w)) = true /\
  List.length (frameQueue (host (command Reset w))) = 1%nat.
Proof.
  cbv zeta. split; [vm_compute; reflexivity|].
  apply (proj1 (@commands_schedule_redraw types project font0 host0
                  [InSetData data0; InFrame 1016; InFrame 1033]
                  ltac:(vm_compute; reflexivity))).
Defined.

(** X6 at work: the Enter key. *)
Lemma enter_is_ignored :
  handleKeyDown "Enter"%string (Some bound) = Some bound.
Proof.
  apply (proj1 (@other_keys_ignored types "Enter"%string bound)).
  vm_compute. intuition discriminate.
Defined.


(** X16 at work: [setData] without model data on the fresh session. *)
Lemma loop_starts_without_model :
  let w := run [] (session font0 host0) in
  let nodata := @Build_ICanvasData types None in
  stopped (this w) = false /\
  live (setData nodata w) = true /\
  isDirty (this (setData nodata w)) = true /\
  List.length (frameQueue (host (setData nodata w))) = 1%nat.
Proof.
  cbv zeta. split; [vm_compute; reflexivity|].
  apply (@setData_starts_the_loop types project font0 host0 []
           (@Build_ICanvasData types None)).
  vm_compute; reflexivity.
Defined.

(** X17 at work: the flag is up after the binding [setData]. *)
Lemma raised_flag_is_served :
  let w := run [InSetData data0] (session font0 host0) in
  isDirty (this w) = true /\ frameQueue (host w) <> [].
Proof.
  cbv zeta. split; [vm_compute; reflexivity|].
  apply (@no_lost_redraw types project font0 host0 [InSetData data0]);
    vm_compute; reflexivity.
Defined.

Import LocalStorage TensorData DemoHelpers.

Local Open Scope string_scope.

(** X9 at work: 3 is written as [111] and read back. *)
Lemma three_round_trips :
  exists s',
    @writeToLocalStorage nat unary "k" 3%nat (Some corruptStorage) = Returned (Some s') /\
    @readFromLocalStorage nat unary "k" (Some s') = (Some 3%nat, []).
Proof.
  apply (@LocalStorageFacts.storage_round_trip nat unary "k" "111" 3%nat corruptStorage);
    try reflexivity.
  discriminate.
Defined.

(** X10 at work: writing 0 removes a corrupt entry. *)
Lemma zero_erases :
  exists s',
    @writeToLocalStorage nat unary "k" 0%nat (Some corruptStorage) = Returned (Some s') /\
    getItem "k" s' = None /\
    @readFromLocalStorage nat unary "k" (Some s') = (None, []).
Proof.
  apply (@LocalStorageFacts.storage_erase nat unary "k" 0%nat corruptStorage).
  reflexivity.
Defined.

(** X11 at work: a write to [other] leaves the corrupt [k] as it reads. *)
Lemma other_key_untouched :
  @readFromLocalStorage nat unary "k" (Some (setItem "other" "11" corruptStorage)) =
  @readFromLocalStorage nat unary "k" (Some corruptStorage).
Proof.
  apply (@LocalStorageFacts.storage_keys_independent nat unary
           "other" "k" 2%nat corruptStorage).
  - discriminate.
  - reflexivity.
Defined.


(** X14 at work: one tensor, two plain members. *)
Lemma response_loads :
  @fetchTensorData tensors (JObject response) =
    Returned (SetObject
      [("wte", @Tensor tensors [1%float; 2%float]);
       ("name", @Plain tensors (JString "gpt-nano"));
       ("n_layer", @Plain tensors (JNumber 3%float))]) /\
  map fst response = ["wte"; "name"; "n_layer"].
Proof.
  assert (E : @fetchTensorData tensors (JObject response) =
    Returned (SetObject
      [("wte", @Tensor tensors [1%float; 2%float]);
       ("name", @Plain tensors (JString "gpt-nano"));
       ("n_layer", @Plain tensors (JNumber 3%float))]))
    by (vm_compute; reflexivity).
  split; [exact E|].
  symmetry. exact (proj1 (@TensorDataFacts.load_keeps_members tensors _ _ E)).
Defined.

(** X15 at work: one [null] among the members. *)
Lemma null_member_rejected :
  @fetchTensorData tensors (JObject (response ++ [("bias", JNull)])) = Thrown.
Proof.
  apply (proj1 (@TensorDataFacts.null_member_throws tensors "bias"
                  (response ++ [("bias", JNull)]) [])).
  apply in_or_app. right. left. reflexivity.
Defined.

End MoreScenarios.
